(** * react-get-post: the coordination cache behind [useGet] / [usePost]

    A shallow embedding of the hook module (the version that keys every
    process-wide map by instance id first and by url second) and the
    properties of its epoch ledgers, registries and caches.

    JavaScript data is modelled as follows.
    - A [Map] iterates in insertion order and [set] on an existing key keeps
      its position: the outer maps, which the code iterates, are association
      lists in insertion order ([JsMap]); the inner maps, which the code only
      reads and writes by key, are [gmap string _].
    - Values exchanged with the injected getter / poster are JSON-like data
      extended with [undefined]; functions are not data values here (React
      would treat a function handed to a state setter as an updater).
    - Epoch counters are JavaScript numbers holding integers; they are
      modelled as [N] (exact for every counter below 2^53).
    - An [async] function is split at its single [await]: the part that runs
      synchronously when it is called, and the part that runs when the
      awaited promise settles, which receives the outcome.
    - React state cells live in a store indexed by instance id; a state
      setter is a handle on the cell it dispatches to. *)

From Stdlib Require Import ZArith NArith Ascii String.
From stdpp Require Import base option strings list gmap fin_maps.

Local Open Scope string_scope.

(** ** Values *)

Inductive value :=
| VUndefined
| VNull
| VBool (b : bool)
| VNum (n : Z)
| VNaN
| VStr (s : string)
| VObj (json : string).

#[global] Instance value_eq_dec : EqDecision value.
Proof. solve_decision. Defined.

(** [Boolean(v)]: the falsy values are [undefined], [null], [false], [0],
    [NaN] and the empty string. *)
Definition truthy (v : value) : bool :=
  match v with
  | VUndefined | VNull | VNaN => false
  | VBool b => b
  | VNum n => negb (n =? 0)%Z
  | VStr s => negb (String.eqb s "")
  | VObj _ => true
  end.

(** [a ?? b] *)
Definition nullish (a b : value) : value :=
  match a with
  | VUndefined | VNull => b
  | _ => a
  end.

(** [T | undefined] read back as a value. *)
Definition or_undefined (o : option value) : value := default VUndefined o.

(** Which inhabitants of a map's value type are [undefined]. *)
Class Undefinable (T : Type) := is_undefined : T → bool.

#[global] Instance value_undefinable : Undefinable value :=
  λ v, bool_decide (v = VUndefined).

(** A thrown value, as published in the [error] cell. *)
Definition err := string.

Inductive outcome :=
| Resolved (result : value)
| Rejected (e : err).

(** ** Insertion-ordered maps *)

Module JsMap.
Section ops.
Context {V : Type}.

Fixpoint get (k : string) (m : list (string * V)) : option V :=
  match m with
  | [] => None
  | (k', v) :: m' => if decide (k' = k) then Some v else get k m'
  end.

Definition has (k : string) (m : list (string * V)) : bool :=
  bool_decide (is_Some (get k m)).

Fixpoint set (k : string) (v : V) (m : list (string * V)) : list (string * V) :=
  match m with
  | [] => [(k, v)]
  | (k', v') :: m' =>
      if decide (k' = k) then (k, v) :: m' else (k', v') :: set k v m'
  end.

Definition keys (m : list (string * V)) : list string := m.*1.
Definition values (m : list (string * V)) : list V := m.*2.
End ops.
End JsMap.

Abbreviation dmap V := (list (string * gmap string V)).

(** ** Double maps: [Map<instanceId, Map<url, value>>] *)

Section double_map.
Context {T : Type}.

Definition getFromDoubleMap (map : dmap T) (instanceId url : string) : option T :=
  JsMap.get instanceId map ≫= λ instanceMap, instanceMap !! url.

Definition setInDoubleMap (map : dmap T) (instanceId url : string) (value : T)
  : dmap T :=
  let map := if JsMap.has instanceId map then map
             else JsMap.set instanceId ∅ map in
  match JsMap.get instanceId map with
  | Some instanceMap => JsMap.set instanceId (<[url := value]> instanceMap) map
  | None => map
  end.

Context `{!Undefinable T}.

(** What [instanceMap.get(url)] yields when it is not [undefined]. *)
Definition defined_at (url : string) (instanceMap : gmap string T) : option T :=
  match instanceMap !! url with
  | Some value => if is_undefined value then None else Some value
  | None => None
  end.

Definition getAllFromUrl (map : dmap T) (url : string) : list T :=
  omap (defined_at url) (JsMap.values map).

Fixpoint getAnyFromUrl (map : dmap T) (url : string) : option T :=
  match map with
  | [] => None
  | (_, instanceMap) :: rest =>
      match defined_at url instanceMap with
      | Some value => Some value
      | None => getAnyFromUrl rest url
      end
  end.
End double_map.

(** ** Epoch ledgers *)

(** The body shared by [incrementGetEpoch] and [incrementSetEpoch]. *)
Definition incrementEpochIn (epochMap : dmap N) (instanceId url : string)
  : dmap N * N :=
  let epochMap := if JsMap.has instanceId epochMap then epochMap
                  else JsMap.set instanceId ∅ epochMap in
  match JsMap.get instanceId epochMap with
  | Some instanceMap =>
      let epoch := default 0%N (instanceMap !! url) in
      let epoch := (epoch + 1)%N in
      (JsMap.set instanceId (<[url := epoch]> instanceMap) epochMap, epoch)
  | None => (epochMap, 0%N) (* excluded by the [has] test above *)
  end.

(** ** Query strings *)

(** [new URLSearchParams(query).toString()]: the entries of the record in
    property order, serialised as application/x-www-form-urlencoded.  A
    string stands for its UTF-8 bytes. *)
Definition query := list (string * string).

Definition hex_digit (n : N) : ascii :=
  match get (N.to_nat n) "0123456789ABCDEF" with
  | Some c => c
  | None => "0"%char
  end.

Definition urlencoded_keeps (n : N) : bool :=
  ((48 <=? n) && (n <=? 57) || (65 <=? n) && (n <=? 90)
   || (97 <=? n) && (n <=? 122)
   || (n =? 42) || (n =? 45) || (n =? 46) || (n =? 95))%N.

Definition urlencoded_byte (c : ascii) : string :=
  let n := N_of_ascii c in
  if urlencoded_keeps n then String c ""
  else if (n =? 32)%N then "+"
  else String "%" (String (hex_digit (n / 16)) (String (hex_digit (n mod 16)) "")).

Fixpoint urlencoded (s : string) : string :=
  match s with
  | "" => ""
  | String c s' => urlencoded_byte c ++ urlencoded s'
  end.

Fixpoint URLSearchParams_toString (q : query) : string :=
  match q with
  | [] => ""
  | [(k, v)] => urlencoded k ++ "=" ++ urlencoded v
  | (k, v) :: rest =>
      urlencoded k ++ "=" ++ urlencoded v ++ "&" ++ URLSearchParams_toString rest
  end.

(** [`${url}?${new URLSearchParams(query).toString()}`] *)
Definition with_query (url : string) (q : query) : string :=
  url ++ "?" ++ URLSearchParams_toString q.

(** ** React state and closures *)

Record getHook := GetHook {
  g_data : value;
  g_isGetting : bool;
  g_error : option err;
}.

Record postHook := PostHook {
  p_data : value;
  p_isPosting : bool;
  p_error : option err;
}.

(** The [trigger] closure a render of [useGet] creates: it closes over the
    instance id, the effective url, the options and the [data] of that
    render. *)
Record triggerFn := TriggerFn {
  t_instanceId : string;
  t_url : string;
  t_keepPreviousData : bool;
  t_data : value;
}.

#[global] Instance triggerFn_eq_dec : EqDecision triggerFn.
Proof. solve_decision. Defined.

(** The [setData] dispatcher of a [useGet] instance. *)
Inductive dispatcher := SetDataOf (instanceId : string).

#[global] Instance dispatcher_eq_dec : EqDecision dispatcher.
Proof. solve_decision. Defined.

#[global] Instance triggerFn_undefinable : Undefinable triggerFn := λ _, false.
#[global] Instance dispatcher_undefinable : Undefinable dispatcher := λ _, false.

(** [SetStateAction]: a new value, or an updater of the previous one. *)
Inductive setStateAction :=
| ActValue (v : value)
| ActUpdater (f : value → value).

Definition apply_action (a : setStateAction) (prev : value) : value :=
  match a with
  | ActValue v => v
  | ActUpdater f => f prev
  end.

(** ** The process-wide state

    The six module-level maps, the state cells of the mounted hooks, and two
    append-only logs of what was handed to the environment: the getter calls
    issued (with the closure and the epoch each one captured) and the timers
    set (delay in milliseconds, callback). *)
Record state := State {
  getTriggerMap : dmap triggerFn;
  getSetDataMap : dmap dispatcher;
  getDataMap : dmap value;
  setDataMap : dmap value;
  getEpochMap : dmap N;
  setEpochMap : dmap N;
  getHooks : gmap string getHook;
  postHooks : gmap string postHook;
  getterCalls : list (triggerFn * N);
  timers : list (N * triggerFn);
}.

Definition initial : state := State [] [] [] [] [] [] ∅ ∅ [] [].

Definition set_getTriggerMap (x : dmap triggerFn) (st : state) : state :=
  State x (getSetDataMap st) (getDataMap st) (setDataMap st) (getEpochMap st)
    (setEpochMap st) (getHooks st) (postHooks st) (getterCalls st) (timers st).
Definition set_getSetDataMap (x : dmap dispatcher) (st : state) : state :=
  State (getTriggerMap st) x (getDataMap st) (setDataMap st) (getEpochMap st)
    (setEpochMap st) (getHooks st) (postHooks st) (getterCalls st) (timers st).
Definition set_getDataMap (x : dmap value) (st : state) : state :=
  State (getTriggerMap st) (getSetDataMap st) x (setDataMap st) (getEpochMap st)
    (setEpochMap st) (getHooks st) (postHooks st) (getterCalls st) (timers st).
Definition set_setDataMap (x : dmap value) (st : state) : state :=
  State (getTriggerMap st) (getSetDataMap st) (getDataMap st) x (getEpochMap st)
    (setEpochMap st) (getHooks st) (postHooks st) (getterCalls st) (timers st).
Definition set_getEpochMap (x : dmap N) (st : state) : state :=
  State (getTriggerMap st) (getSetDataMap st) (getDataMap st) (setDataMap st) x
    (setEpochMap st) (getHooks st) (postHooks st) (getterCalls st) (timers st).
Definition set_setEpochMap (x : dmap N) (st : state) : state :=
  State (getTriggerMap st) (getSetDataMap st) (getDataMap st) (setDataMap st)
    (getEpochMap st) x (getHooks st) (postHooks st) (getterCalls st) (timers st).
Definition set_getHooks (x : gmap string getHook) (st : state) : state :=
  State (getTriggerMap st) (getSetDataMap st) (getDataMap st) (setDataMap st)
    (getEpochMap st) (setEpochMap st) x (postHooks st) (getterCalls st) (timers st).
Definition set_postHooks (x : gmap string postHook) (st : state) : state :=
  State (getTriggerMap st) (getSetDataMap st) (getDataMap st) (setDataMap st)
    (getEpochMap st) (setEpochMap st) (getHooks st) x (getterCalls st) (timers st).
Definition set_getterCalls (x : list (triggerFn * N)) (st : state) : state :=
  State (getTriggerMap st) (getSetDataMap st) (getDataMap st) (setDataMap st)
    (getEpochMap st) (setEpochMap st) (getHooks st) (postHooks st) x (timers st).
Definition set_timers (x : list (N * triggerFn)) (st : state) : state :=
  State (getTriggerMap st) (getSetDataMap st) (getDataMap st) (setDataMap st)
    (getEpochMap st) (setEpochMap st) (getHooks st) (postHooks st) (getterCalls st) x.

(** *** State setters.  A setter of an instance that is not mounted does
    nothing. *)

Definition dispatch (d : dispatcher) (a : setStateAction) (st : state) : state :=
  let 'SetDataOf i := d in
  set_getHooks
    (alter (λ h, GetHook (apply_action a (g_data h)) (g_isGetting h) (g_error h))
       i (getHooks st)) st.

Definition get_setIsGetting (i : string) (b : bool) (st : state) : state :=
  set_getHooks (alter (λ h, GetHook (g_data h) b (g_error h)) i (getHooks st)) st.

Definition get_setError (i : string) (e : option err) (st : state) : state :=
  set_getHooks (alter (λ h, GetHook (g_data h) (g_isGetting h) e) i (getHooks st)) st.

Definition post_setData (i : string) (a : setStateAction) (st : state) : state :=
  set_postHooks
    (alter (λ h, PostHook (apply_action a (p_data h)) (p_isPosting h) (p_error h))
       i (postHooks st)) st.

Definition post_setIsPosting (i : string) (b : bool) (st : state) : state :=
  set_postHooks (alter (λ h, PostHook (p_data h) b (p_error h)) i (postHooks st)) st.

Definition post_setError (i : string) (e : option err) (st : state) : state :=
  set_postHooks (alter (λ h, PostHook (p_data h) (p_isPosting h) e) i (postHooks st)) st.

(** ** The module's functions *)

Definition clearCache (st : state) : state :=
  set_setEpochMap []
    (set_getEpochMap []
       (set_getDataMap []
          (set_getSetDataMap []
             (set_getTriggerMap [] st)))).

Definition incrementGetEpoch (instanceId url : string) (st : state) : state * N :=
  let '(m, epoch) := incrementEpochIn (getEpochMap st) instanceId url in
  (set_getEpochMap m st, epoch).

Definition incrementSetEpoch (instanceId url : string) (st : state) : state * N :=
  let '(m, epoch) := incrementEpochIn (setEpochMap st) instanceId url in
  (set_setEpochMap m st, epoch).

(** *** [useGet] *)

Record GetOptions := {
  get_query : option query;
  keepPreviousData : bool;
}.

(** The synchronous part of [trigger], up to the call of the getter. *)
Definition trigger (t : triggerFn) (st : state) : state :=
  let '(st, epoch) := incrementGetEpoch (t_instanceId t) (t_url t) st in
  let st := if negb (t_keepPreviousData t)
            then get_setIsGetting (t_instanceId t) true st else st in
  set_getterCalls (getterCalls st ++ [(t, epoch)]) st.

(** The rest of [trigger], run when the getter's promise settles: the [try]
    continuation on [Resolved], the [catch] block on [Rejected]. *)
Definition trigger_settled (t : triggerFn) (epoch : N) (o : outcome) (st : state)
  : state :=
  let instanceId := t_instanceId t in
  let url := t_url t in
  if decide (getFromDoubleMap (getEpochMap st) instanceId url ≠ Some epoch) then st
  else
    match o with
    | Resolved result =>
        let st := dispatch (SetDataOf instanceId) (ActValue result) st in
        let st := set_getDataMap
                    (setInDoubleMap (getDataMap st) instanceId url result) st in
        let st := get_setError instanceId None st in
        get_setIsGetting instanceId false st
    | Rejected error =>
        let st := get_setError instanceId (Some error) st in
        let st := get_setIsGetting instanceId false st in
        if negb (truthy (t_data t))
        then set_timers (timers st ++ [(1000%N, t)]) st
        else st
    end.

Definition effective_url (url : string) (q : option query) : string :=
  match q with
  | Some q => with_query url q
  | None => url
  end.

(** The initial [data] of a [useGet] instance. *)
Definition useGet_initial_data (url : string) (options : GetOptions) (st : state)
  : value :=
  let previousData :=
    if keepPreviousData options
    then or_undefined (getAnyFromUrl (getDataMap st) url)
    else VUndefined in
  nullish previousData VNull.

(** One render of [useGet] by the instance [instanceId].  [useState] only
    uses its argument on the first render of the instance.  The result is
    the state after the two registrations, and the closure of this render. *)
Definition useGet (instanceId url : string) (options : GetOptions) (st : state)
  : state * triggerFn :=
  let url := effective_url url (get_query options) in
  let hook :=
    match getHooks st !! instanceId with
    | Some hook => hook
    | None =>
        let data := useGet_initial_data url options st in
        GetHook data (negb (truthy data)) None
    end in
  let t := TriggerFn instanceId url (keepPreviousData options) (g_data hook) in
  let st := set_getHooks (<[instanceId := hook]> (getHooks st)) st in
  let st := set_getTriggerMap
              (setInDoubleMap (getTriggerMap st) instanceId url t) st in
  let st := set_getSetDataMap
              (setInDoubleMap (getSetDataMap st) instanceId url (SetDataOf instanceId))
              st in
  (st, t).

(** The body of the effect of a render. *)
Definition useGet_effect (t : triggerFn) (st : state) : state :=
  if negb (truthy (t_data t)) then trigger t st else st.

Definition triggerGet (url : string) (q : option query) (st : state) : state :=
  let url := effective_url url q in
  let triggers := getAllFromUrl (getTriggerMap st) url in
  foldl (λ st t, trigger t st) st triggers.

(** *** [usePost] *)

Inductive optimistic :=
| OptValue (v : value)
| OptUpdater (f : value → value → value).

(** An options object: [None] is a property that is not there, [Some x] one
    that is, where [x] may itself be [undefined]. *)
Record PostOptions := {
  post_query : option (option query);
  getUrl : option (option string);
  getterQuery : option (option query);
  optimisticData : option optimistic;
  useResponseData : option (option bool);
}.

Definition assign_prop {T} (target source : option T) : option T :=
  match source with
  | Some x => Some x
  | None => target
  end.

(** [Object.assign({}, options, extraOptions)] *)
Definition Object_assign (options : PostOptions) (extraOptions : option PostOptions)
  : PostOptions :=
  match extraOptions with
  | None => options
  | Some extra =>
      {| post_query := assign_prop (post_query options) (post_query extra);
         getUrl := assign_prop (getUrl options) (getUrl extra);
         getterQuery := assign_prop (getterQuery options) (getterQuery extra);
         optimisticData := assign_prop (optimisticData options) (optimisticData extra);
         useResponseData :=
           assign_prop (useResponseData options) (useResponseData extra) |}
  end.

Definition optimistic_truthy (o : option optimistic) : bool :=
  match o with
  | Some (OptValue v) => truthy v
  | Some (OptUpdater _) => true
  | None => false
  end.

Definition string_truthy (o : option string) : bool :=
  match o with
  | Some s => negb (String.eqb s "")
  | None => false
  end.

(** [setData(value => typeof optimisticData === 'function'
       ? optimisticData(value, body) : optimisticData)] *)
Definition own_optimistic_action (o : option optimistic) (body : value)
  : setStateAction :=
  ActUpdater (λ value,
    match o with
    | Some (OptUpdater f) => f value body
    | Some (OptValue v) => v
    | None => VUndefined
    end).

(** [setDataFn(optimisticData)]: React calls a function it is handed with
    the previous state alone. *)
Definition pushed_optimistic_action (o : option optimistic) : setStateAction :=
  match o with
  | Some (OptUpdater f) => ActUpdater (λ value, f value VUndefined)
  | Some (OptValue v) => ActValue v
  | None => ActValue VUndefined
  end.

(** What a call of [post] holds on to across its [await]. *)
Record postCall := PostCall {
  pc_instanceId : string;
  pc_url : string;
  pc_epoch : N;
  pc_opts : PostOptions;
  pc_currentUrl : string;
  pc_currentGetUrl : option string;
}.

Definition currentUrl_of (url : string) (opts : PostOptions) : string :=
  effective_url url (mjoin (post_query opts)).

Definition currentGetUrl_of (opts : PostOptions) : option string :=
  match mjoin (getUrl opts), mjoin (getterQuery opts) with
  | Some g, Some q => if string_truthy (Some g) then Some (with_query g q) else Some g
  | g, _ => g
  end.

(** The read key used under the guard [if (opts.getUrl)]. *)
Definition related_key (opts : PostOptions) (currentGetUrl : option string)
  : option string :=
  if string_truthy (mjoin (getUrl opts)) then currentGetUrl else None.

(** One render of [usePost]. *)
Definition usePost (instanceId : string) (st : state) : state :=
  match postHooks st !! instanceId with
  | Some _ => st
  | None => set_postHooks (<[instanceId := PostHook VNull false None]> (postHooks st)) st
  end.

(** The synchronous part of [post], up to the call of the poster. *)
Definition post (instanceId url : string) (options : PostOptions) (body : value)
    (extraOptions : option PostOptions) (st : state) : state * postCall :=
  let '(st, epoch) := incrementSetEpoch instanceId url st in
  let opts := Object_assign options extraOptions in
  let currentUrl := currentUrl_of url opts in
  let currentGetUrl := currentGetUrl_of opts in
  let st :=
    if optimistic_truthy (optimisticData opts) then
      let st := post_setData instanceId
                  (own_optimistic_action (optimisticData opts) body) st in
      match related_key opts currentGetUrl with
      | Some currentGetUrl =>
          let setDataFunctions := getAllFromUrl (getSetDataMap st) currentGetUrl in
          foldl (λ st setDataFn,
                   dispatch setDataFn (pushed_optimistic_action (optimisticData opts)) st)
            st setDataFunctions
      | None => st
      end
    else post_setIsPosting instanceId true st in
  (st, PostCall instanceId url epoch opts currentUrl currentGetUrl).

(** The loop that restores each instance of the read cache to its own saved
    data. *)
Definition rollback_readers (currentGetUrl : string) (st : state) : state :=
  foldl (λ st entry,
           let '(currentInstanceId, instanceMap) := entry in
           let savedData := or_undefined (instanceMap !! currentGetUrl) in
           match getFromDoubleMap (getSetDataMap st) currentInstanceId currentGetUrl with
           | Some setDataFn =>
               if negb (is_undefined savedData)
               then dispatch setDataFn (ActValue savedData) st
               else st
           | None => st
           end)
    st (getDataMap st).

(** The rest of [post], run when the poster's promise settles. *)
Definition post_settled (c : postCall) (o : outcome) (st : state) : state :=
  let instanceId := pc_instanceId c in
  let url := pc_url c in
  let opts := pc_opts c in
  if decide (getFromDoubleMap (setEpochMap st) instanceId url ≠ Some (pc_epoch c))
  then st
  else
    match o with
    | Resolved result =>
        let st := post_setData instanceId (ActValue result) st in
        let st := set_setDataMap
                    (setInDoubleMap (setDataMap st) instanceId url result) st in
        let st := post_setError instanceId None st in
        let st := post_setIsPosting instanceId false st in
        match related_key opts (pc_currentGetUrl c) with
        | None => st
        | Some currentGetUrl =>
            if default false (mjoin (useResponseData opts)) then
              let setDataFunctions := getAllFromUrl (getSetDataMap st) currentGetUrl in
              let st := foldl (λ st setDataFn, dispatch setDataFn (ActValue result) st)
                          st setDataFunctions in
              foldl (λ st instanceMapId,
                       set_getDataMap
                         (setInDoubleMap (getDataMap st) instanceMapId
                            currentGetUrl result) st)
                st (JsMap.keys (getDataMap st))
            else
              let triggers := getAllFromUrl (getTriggerMap st) currentGetUrl in
              foldl (λ st t, trigger t st) st triggers
        end
    | Rejected error =>
        let st := post_setError instanceId (Some error) st in
        let st := post_setIsPosting instanceId false st in
        if optimistic_truthy (optimisticData opts) then
          let st := post_setData instanceId
                      (ActValue (or_undefined
                                   (getFromDoubleMap (setDataMap st) instanceId url)))
                      st in
          match related_key opts (pc_currentGetUrl c) with
          | Some currentGetUrl => rollback_readers currentGetUrl st
          | None => st
          end
        else st
    end.

(** ** Events: everything that can run between two suspension points *)

Inductive event :=
| EClearCache
| EUseGet (instanceId url : string) (options : GetOptions)
| EEffect (t : triggerFn)
| ETrigger (t : triggerFn)
| ETriggerSettled (t : triggerFn) (epoch : N) (o : outcome)
| ETriggerGet (url : string) (q : option query)
| EUsePost (instanceId : string)
| EPost (instanceId url : string) (options : PostOptions) (body : value)
    (extraOptions : option PostOptions)
| EPostSettled (c : postCall) (o : outcome).

Definition run (e : event) (st : state) : state :=
  match e with
  | EClearCache => clearCache st
  | EUseGet instanceId url options => (useGet instanceId url options st).1
  | EEffect t => useGet_effect t st
  | ETrigger t => trigger t st
  | ETriggerSettled t epoch o => trigger_settled t epoch o st
  | ETriggerGet url q => triggerGet url q st
  | EUsePost instanceId => usePost instanceId st
  | EPost instanceId url options body extraOptions =>
      (post instanceId url options body extraOptions st).1
  | EPostSettled c o => post_settled c o st
  end.

Definition run_all (es : list event) (st : state) : state :=
  foldl (λ st e, run e st) st es.

(** ** Relations between states *)

(** The ledger entry of a pair, [0] when there is none. *)
Definition epoch_of (epochMap : dmap N) (instanceId url : string) : N :=
  default 0%N (getFromDoubleMap epochMap instanceId url).

(** No entry of either ledger is lower in [st'] than in [st]. *)
Definition ledgers_le (st st' : state) : Prop :=
  ∀ i u,
    (epoch_of (getEpochMap st) i u ≤ epoch_of (getEpochMap st') i u)%N
    ∧ (epoch_of (setEpochMap st) i u ≤ epoch_of (setEpochMap st') i u)%N.

(** Both ledgers of [st'] are those of [st]. *)
Definition ledgers_same (st st' : state) : Prop :=
  getEpochMap st' = getEpochMap st ∧ setEpochMap st' = setEpochMap st.

(** Frames: what a loop over setters, over triggers, or over the keys of
    the read cache may change. *)
Definition only_getHooks (st st' : state) : Prop :=
  getTriggerMap st' = getTriggerMap st ∧ getSetDataMap st' = getSetDataMap st
  ∧ getDataMap st' = getDataMap st ∧ setDataMap st' = setDataMap st
  ∧ getEpochMap st' = getEpochMap st ∧ setEpochMap st' = setEpochMap st
  ∧ postHooks st' = postHooks st ∧ getterCalls st' = getterCalls st
  ∧ timers st' = timers st.

Definition only_reads_started (st st' : state) : Prop :=
  getTriggerMap st' = getTriggerMap st ∧ getSetDataMap st' = getSetDataMap st
  ∧ getDataMap st' = getDataMap st ∧ setDataMap st' = setDataMap st
  ∧ setEpochMap st' = setEpochMap st ∧ postHooks st' = postHooks st
  ∧ timers st' = timers st.

Definition only_getDataMap (st st' : state) : Prop :=
  getTriggerMap st' = getTriggerMap st ∧ getSetDataMap st' = getSetDataMap st
  ∧ setDataMap st' = setDataMap st
  ∧ getEpochMap st' = getEpochMap st ∧ setEpochMap st' = setEpochMap st
  ∧ getHooks st' = getHooks st ∧ postHooks st' = postHooks st
  ∧ getterCalls st' = getterCalls st ∧ timers st' = timers st.

(** What the registrations of [useGet] and the updates of the read cache
    maintain: the read cache has one entry per instance, and the setter
    registered for an instance is that instance's own. *)
Definition registries_wf (st : state) : Prop :=
  NoDup (JsMap.keys (getDataMap st))
  ∧ ∀ i u d, getFromDoubleMap (getSetDataMap st) i u = Some d → d = SetDataOf i.

(** ** Repeated increments *)

(** [n] consecutive calls of [incrementGetEpoch], with what each returned. *)
Fixpoint incrementGetEpoch_times (n : nat) (instanceId url : string) (st : state)
  : state * list N :=
  match n with
  | O => (st, [])
  | S n =>
      let '(st, epoch) := incrementGetEpoch instanceId url st in
      let '(st, epochs) := incrementGetEpoch_times n instanceId url st in
      (st, epoch :: epochs)
  end.

Fixpoint incrementSetEpoch_times (n : nat) (instanceId url : string) (st : state)
  : state * list N :=
  match n with
  | O => (st, [])
  | S n =>
      let '(st, epoch) := incrementSetEpoch instanceId url st in
      let '(st, epochs) := incrementSetEpoch_times n instanceId url st in
      (st, epoch :: epochs)
  end.

(** ** Scenarios *)

Definition noPostOptions : PostOptions :=
  {| post_query := None; getUrl := None; getterQuery := None;
     optimisticData := None; useResponseData := None |}.

Definition plainGet : GetOptions := {| get_query := None; keepPreviousData := false |}.
Definition keepingGet : GetOptions := {| get_query := None; keepPreviousData := true |}.

(** Options with the optimistic data taken out. *)
Definition without_optimisticData (options : PostOptions) : PostOptions :=
  {| post_query := post_query options; getUrl := getUrl options;
     getterQuery := getterQuery options; optimisticData := None;
     useResponseData := useResponseData options |}.

Definition queryPostOptions : PostOptions :=
  {| post_query := Some (Some [("a", "1")]); getUrl := None; getterQuery := None;
     optimisticData := None; useResponseData := None |}.

Definition responseOptions : PostOptions :=
  {| post_query := None; getUrl := Some (Some "/items"); getterQuery := None;
     optimisticData := None; useResponseData := Some (Some true) |}.

Definition optimisticOptions : PostOptions :=
  {| post_query := None; getUrl := Some (Some "/items"); getterQuery := None;
     optimisticData := Some (OptValue (VObj "[optimistic]"));
     useResponseData := None |}.

Definition refetchOptions : PostOptions :=
  {| post_query := None; getUrl := Some (Some "/items"); getterQuery := None;
     optimisticData := None; useResponseData := None |}.

(** A [usePost] instance ["P"] on ["/items"] whose first post was confirmed
    with the response [{id:1}]. *)
Definition after_confirmed_post : state :=
  let st := usePost "P" initial in
  let '(st, c) := post "P" "/items" noPostOptions (VObj "{name}") None st in
  post_settled c (Resolved (VObj "{id:1}")) st.

(** The same instance posts again, after [clearCache], with optimistic data,
    and the poster fails. *)
Definition optimistic_failure_after_clear : state :=
  let st := clearCache after_confirmed_post in
  let options :=
    {| post_query := None; getUrl := None; getterQuery := None;
       optimisticData := Some (OptValue (VObj "{id:2}")); useResponseData := None |} in
  let '(st, c) := post "P" "/items" options (VObj "{name}") None st in
  post_settled c (Rejected "Post failed") st.

Definition post_with_query : state * postCall :=
  post "P" "/items" queryPostOptions VNull None (usePost "P" initial).

(** The same instance posts once more, without query parameters, before the
    first post settles. *)
Definition post_with_query_then_without : state :=
  (post "P" "/items" noPostOptions VNull None post_with_query.1).1.

(** A first post with optimistic data, on an instance nothing was ever
    confirmed for. *)
Definition first_optimistic_post : state * postCall :=
  post "P" "/items"
    {| post_query := None; getUrl := None; getterQuery := None;
       optimisticData := Some (OptValue (VObj "{id:2}")); useResponseData := None |}
    (VObj "{name}") None (usePost "P" initial).

(** A first observer of ["/cached"] whose read has resolved. *)
Definition after_first_read : state :=
  let '(st, t) := useGet "G1" "/cached" keepingGet initial in
  let st := useGet_effect t st in
  trigger_settled t 1 (Resolved (VObj "{message}")) st.

(** An observer ["G"] of ["/items"] starts its first read; while the getter is
    pending, a post with [useResponseData] resolves and pushes its response to
    ["G"], which renders again.  The result is the state then, with the
    closure of the first render, whose read is still the current one. *)
Definition read_overtaken_by_push : state * triggerFn :=
  let '(st, t0) := useGet "G" "/items" plainGet initial in
  let st := useGet_effect t0 st in
  let st := usePost "P" st in
  let '(st, c) := post "P" "/items" responseOptions (VObj "{name}") None st in
  let st := post_settled c (Resolved (VObj "[1]")) st in
  let '(st, t1) := useGet "G" "/items" plainGet st in
  let st := useGet_effect t1 st in
  (st, t0).

(** An observer ["G"] of ["/count"] whose first read resolved with [0]: it
    renders again, and the effect of that render starts a second read.  The
    result is the state then, with the closure of the second render. *)
Definition read_of_zero : state * triggerFn :=
  let '(st, t0) := useGet "G" "/count" plainGet initial in
  let st := useGet_effect t0 st in
  let st := trigger_settled t0 1 (Resolved (VNum 0)) st in
  let '(st, t1) := useGet "G" "/count" plainGet st in
  let st := useGet_effect t1 st in
  (st, t1).

(** Three observers of ["/items"]: ["G1"] and ["G2"] have read different
    values and rendered again with them, the read of ["G3"] is still pending;
    then ["P"] mounts. *)
Definition three_observers : list event :=
  [EUseGet "G1" "/items" keepingGet;
   EEffect (TriggerFn "G1" "/items" true VNull);
   ETriggerSettled (TriggerFn "G1" "/items" true VNull) 1 (Resolved (VObj "[1]"));
   EUseGet "G1" "/items" keepingGet;
   EEffect (TriggerFn "G1" "/items" true (VObj "[1]"));
   EUseGet "G2" "/items" plainGet;
   EEffect (TriggerFn "G2" "/items" false VNull);
   ETriggerSettled (TriggerFn "G2" "/items" false VNull) 1 (Resolved (VObj "[1,2]"));
   EUseGet "G2" "/items" plainGet;
   EEffect (TriggerFn "G2" "/items" false (VObj "[1,2]"));
   EUseGet "G3" "/items" plainGet;
   EEffect (TriggerFn "G3" "/items" false VNull);
   EUsePost "P"].

(** The state in which a post of ["P"] with the given options is pending,
    and what that post holds on to. *)
Definition post_pending (options : PostOptions) : state :=
  run_all (three_observers ++ [EPost "P" "/items" options (VObj "{name}") None])
    initial.

Definition pending_call (options : PostOptions) : postCall :=
  (post "P" "/items" options (VObj "{name}") None
     (run_all three_observers initial)).2.

(** ** Further relations and scenarios *)

(** What the registrations of [useGet] maintain besides: each registry has
    one entry per instance, and the trigger registered for an instance and a
    key closes over that instance and that key. *)
Definition registrations_wf (st : state) : Prop :=
  NoDup (JsMap.keys (getTriggerMap st))
  ∧ NoDup (JsMap.keys (getSetDataMap st))
  ∧ ∀ i u t, getFromDoubleMap (getTriggerMap st) i u = Some t →
             t_instanceId t = i ∧ t_url t = u.

(** One attempt of a trigger whose getter rejects: the call, then the
    [catch] block with the epoch the call captured. *)
Definition failed_attempt (error : err) (t : triggerFn) (st : state) : state :=
  let epoch := (incrementGetEpoch (t_instanceId t) (t_url t) st).2 in
  trigger_settled t epoch (Rejected error) (trigger t st).

(** [n] attempts in a row, each one the retry the previous one scheduled. *)
Fixpoint failed_attempts (n : nat) (error : err) (t : triggerFn) (st : state)
  : state :=
  match n with
  | O => st
  | S n => failed_attempts n error t (failed_attempt error t st)
  end.

(** After [after_first_read], a second observer ["G2"] of ["/cached"] mounts
    and its first read is pending.  The result is the state then, with the
    closure of that render. *)
Definition second_read_pending : state * triggerFn :=
  let '(st, t) := useGet "G2" "/cached" plainGet after_first_read in
  (useGet_effect t st, t).

(** A registry with two instances on ["/a"], one of them also on ["/b"]. *)
Definition two_registered : dmap triggerFn :=
  setInDoubleMap
    (setInDoubleMap
       (setInDoubleMap [] "G1" "/a" (TriggerFn "G1" "/a" false VNull))
       "G2" "/a" (TriggerFn "G2" "/a" true VNull))
    "G1" "/b" (TriggerFn "G1" "/b" false VNull).

(** ** Proof tools *)

(** [EClearCache] is not among the events of an explicit list. *)
Ltac not_in_events :=
  let H := fresh in
  intros H;
  repeat (apply elem_of_cons in H as [H|H]; [discriminate H|]);
  by apply elem_of_nil in H.

(** A conjunction of equalities between the fields of two states is a
    preorder. *)
Ltac frame_preorder :=
  split;
  [ intros ?; by split_and!
  | intros ? ? ? H1 H2; red in H1, H2 |- *; destruct_and!; split_and!; congruence ].

(** * Properties *)

Local Open Scope list_scope.

(** ** Insertion-ordered maps *)

Section jsmap_facts.
Context {V : Type}.
Implicit Types (m : list (string * V)) (k : string) (v : V).

Lemma jsmap_get_set_eq m k v : JsMap.get k (JsMap.set k v m) = Some v.
Proof.
  induction m as [|[k' v'] m IH]; simpl.
  - by rewrite decide_True.
  - destruct (decide (k' = k)) as [->|Hne]; simpl.
    + by rewrite decide_True.
    + by rewrite decide_False.
Qed.

Lemma jsmap_get_set_ne m k k' v :
  k ≠ k' → JsMap.get k' (JsMap.set k v m) = JsMap.get k' m.
Proof.
  intros Hne. induction m as [|[k0 v0] m IH]; simpl.
  - by rewrite decide_False.
  - destruct (decide (k0 = k)) as [->|Hk0]; simpl.
    + by rewrite !decide_False.
    + by rewrite IH.
Qed.

Lemma jsmap_keys_set_None m k v :
  JsMap.get k m = None → JsMap.keys (JsMap.set k v m) = JsMap.keys m ++ [k].
Proof.
  unfold JsMap.keys. induction m as [|[k' v'] m IH]; simpl; [done|].
  destruct (decide (k' = k)); [done|]. intros H. simpl. f_equal. by apply IH.
Qed.

Lemma jsmap_keys_set_Some m k v :
  is_Some (JsMap.get k m) → JsMap.keys (JsMap.set k v m) = JsMap.keys m.
Proof.
  unfold JsMap.keys. induction m as [|[k' v'] m IH]; simpl.
  - by intros [? ?].
  - destruct (decide (k' = k)) as [->|]; [done|]. intros H. simpl. f_equal.
    by apply IH.
Qed.

Lemma jsmap_get_None m k : JsMap.get k m = None ↔ k ∉ JsMap.keys m.
Proof.
  unfold JsMap.keys. induction m as [|[k' v'] m IH]; simpl.
  - split; [intros _; apply not_elem_of_nil | done].
  - rewrite not_elem_of_cons. destruct (decide (k' = k)) as [->|Hne].
    + split; [done | by intros [? _]].
    + rewrite IH. split; [by intros ?; split | by intros [_ ?]].
Qed.

Lemma jsmap_get_elem_of m k v : JsMap.get k m = Some v → (k, v) ∈ m.
Proof.
  induction m as [|[k' v'] m IH]; simpl; [done|].
  destruct (decide (k' = k)) as [->|Hne].
  - intros [= ->]. apply list_elem_of_here.
  - intros H. apply list_elem_of_further. auto.
Qed.

Lemma jsmap_has_true m k : JsMap.has k m = true ↔ is_Some (JsMap.get k m).
Proof. unfold JsMap.has. apply bool_decide_eq_true. Qed.

Lemma jsmap_has_false m k : JsMap.has k m = false ↔ JsMap.get k m = None.
Proof.
  unfold JsMap.has. rewrite bool_decide_eq_false, eq_None_not_Some. done.
Qed.

Lemma jsmap_NoDup_set m k v :
  NoDup (JsMap.keys m) → NoDup (JsMap.keys (JsMap.set k v m)).
Proof.
  intros Hnd. destruct (JsMap.get k m) as [v0|] eqn:Hget.
  - by rewrite jsmap_keys_set_Some.
  - rewrite jsmap_keys_set_None by done.
    apply NoDup_app. split; [done|]. split; [|apply NoDup_singleton].
    intros x Hx ->%list_elem_of_singleton. by apply jsmap_get_None in Hget.
Qed.
End jsmap_facts.

(** ** Double maps *)

Section double_map_facts.
Context {T : Type}.
Implicit Types (map : dmap T) (i u : string) (x : T).

(** [setInDoubleMap] as one update of the outer map. *)
Lemma setInDoubleMap_unfold map i u x :
  setInDoubleMap map i u x
  = JsMap.set i (<[u := x]> (default ∅ (JsMap.get i map))) map.
Proof.
  unfold setInDoubleMap. destruct (JsMap.has i map) eqn:Hhas.
  - apply jsmap_has_true in Hhas as [im Him]. by rewrite Him.
  - apply jsmap_has_false in Hhas. rewrite jsmap_get_set_eq, Hhas. simpl.
    clear Hhas. induction map as [|[k' v'] map IH]; simpl.
    + by rewrite decide_True.
    + destruct (decide (k' = i)) as [->|Hne]; simpl.
      * by rewrite decide_True.
      * rewrite decide_False by done. by rewrite IH.
Qed.

Lemma getFromDoubleMap_set_eq map i u x :
  getFromDoubleMap (setInDoubleMap map i u x) i u = Some x.
Proof.
  rewrite setInDoubleMap_unfold. unfold getFromDoubleMap.
  rewrite jsmap_get_set_eq. simpl. apply lookup_insert_eq.
Qed.

Lemma getFromDoubleMap_set_ne map i u x i' u' :
  (i, u) ≠ (i', u') →
  getFromDoubleMap (setInDoubleMap map i u x) i' u' = getFromDoubleMap map i' u'.
Proof.
  intros Hne. rewrite setInDoubleMap_unfold. unfold getFromDoubleMap.
  destruct (decide (i = i')) as [<-|Hi].
  - rewrite jsmap_get_set_eq. simpl.
    rewrite lookup_insert_ne by congruence.
    by destruct (JsMap.get i map).
  - by rewrite jsmap_get_set_ne.
Qed.

Lemma getFromDoubleMap_set map i u x i' u' :
  getFromDoubleMap (setInDoubleMap map i u x) i' u'
  = if decide ((i, u) = (i', u')) then Some x else getFromDoubleMap map i' u'.
Proof.
  case_decide as H.
  - injection H as <- <-. apply getFromDoubleMap_set_eq.
  - by apply getFromDoubleMap_set_ne.
Qed.

Lemma setInDoubleMap_NoDup map i u x :
  NoDup (JsMap.keys map) → NoDup (JsMap.keys (setInDoubleMap map i u x)).
Proof. rewrite setInDoubleMap_unfold. apply jsmap_NoDup_set. Qed.

Lemma setInDoubleMap_keys_known map i u x :
  i ∈ JsMap.keys map → JsMap.keys (setInDoubleMap map i u x) = JsMap.keys map.
Proof.
  intros Hi. rewrite setInDoubleMap_unfold. apply jsmap_keys_set_Some.
  destruct (JsMap.get i map) eqn:Hget; [eauto|].
  by apply jsmap_get_None in Hget.
Qed.

Lemma getFromDoubleMap_empty i u : getFromDoubleMap (@nil (string * gmap string T)) i u = None.
Proof. done. Qed.
End double_map_facts.

(** ** The epoch ledgers *)

Lemma incrementEpochIn_unfold epochMap i u :
  incrementEpochIn epochMap i u
  = (setInDoubleMap epochMap i u (epoch_of epochMap i u + 1)%N,
     (epoch_of epochMap i u + 1)%N).
Proof.
  unfold incrementEpochIn, setInDoubleMap, epoch_of, getFromDoubleMap.
  destruct (JsMap.has i epochMap) eqn:Hhas.
  - apply jsmap_has_true in Hhas as [im Him]. by rewrite Him.
  - apply jsmap_has_false in Hhas. rewrite jsmap_get_set_eq, Hhas. simpl.
    by rewrite lookup_empty.
Qed.

Lemma epoch_of_set epochMap i u n i' u' :
  epoch_of (setInDoubleMap epochMap i u n) i' u'
  = if decide ((i, u) = (i', u')) then n else epoch_of epochMap i' u'.
Proof. unfold epoch_of. rewrite getFromDoubleMap_set. by case_decide. Qed.

Lemma incrementEpochIn_mono epochMap i u i' u' :
  (epoch_of epochMap i' u' ≤ epoch_of (incrementEpochIn epochMap i u).1 i' u')%N.
Proof.
  rewrite incrementEpochIn_unfold. simpl. rewrite epoch_of_set.
  case_decide as H; [injection H as <- <-|]; lia.
Qed.

Lemma foldl_rel {A B} (R : relation A) `{!PreOrder R} (f : A → B → A) :
  (∀ a b, R a (f a b)) → ∀ l a, R a (foldl f a l).
Proof.
  intros Hf l. induction l as [|b l IH]; intros a; simpl; [done|].
  etrans; [apply Hf | apply IH].
Qed.

#[local] Instance ledgers_le_preorder : PreOrder ledgers_le.
Proof.
  split.
  - intros st i u. lia.
  - intros st1 st2 st3 H12 H23 i u.
    destruct (H12 i u), (H23 i u). lia.
Qed.

#[local] Instance ledgers_same_preorder : PreOrder ledgers_same.
Proof.
  split.
  - by intros st.
  - intros st1 st2 st3 [H1 H2] [H3 H4]. split; congruence.
Qed.

Lemma ledgers_same_le st st' : ledgers_same st st' → ledgers_le st st'.
Proof. intros [Hg Hs] i u. rewrite Hg, Hs. lia. Qed.

Lemma dispatch_ledgers d a st : ledgers_same st (dispatch d a st).
Proof. by destruct d. Qed.

Lemma dispatch_all_ledgers a ds st :
  ledgers_same st (foldl (λ st d, dispatch d a st) st ds).
Proof. apply (foldl_rel ledgers_same). intros. apply dispatch_ledgers. Qed.

Lemma trigger_getEpochMap t st :
  getEpochMap (trigger t st)
  = setInDoubleMap (getEpochMap st) (t_instanceId t) (t_url t)
      (epoch_of (getEpochMap st) (t_instanceId t) (t_url t) + 1)%N.
Proof.
  unfold trigger, incrementGetEpoch. rewrite incrementEpochIn_unfold.
  by destruct (t_keepPreviousData t).
Qed.

Lemma trigger_setEpochMap t st : setEpochMap (trigger t st) = setEpochMap st.
Proof.
  unfold trigger, incrementGetEpoch. rewrite incrementEpochIn_unfold.
  by destruct (t_keepPreviousData t).
Qed.

Lemma trigger_ledgers t st : ledgers_le st (trigger t st).
Proof.
  intros i u. rewrite trigger_getEpochMap, trigger_setEpochMap, epoch_of_set.
  split; [|lia]. case_decide as H; [injection H as <- <-|]; lia.
Qed.

Lemma triggers_ledgers ts st : ledgers_le st (foldl (λ st t, trigger t st) st ts).
Proof. apply (foldl_rel ledgers_le). intros. apply trigger_ledgers. Qed.

Lemma trigger_settled_ledgers t epoch o st :
  ledgers_same st (trigger_settled t epoch o st).
Proof.
  unfold trigger_settled. case_decide; [done|].
  destruct o; [done|]. by destruct (negb (truthy (t_data t))).
Qed.

Lemma useGet_ledgers i url options st : ledgers_same st (useGet i url options st).1.
Proof. done. Qed.

Lemma usePost_ledgers i st : ledgers_same st (usePost i st).
Proof. unfold usePost. by destruct (postHooks st !! i). Qed.

Lemma post_getEpochMap i url options body extra st :
  getEpochMap (post i url options body extra st).1 = getEpochMap st.
Proof.
  unfold post, incrementSetEpoch. rewrite incrementEpochIn_unfold. simpl.
  destruct (optimistic_truthy _); [|done].
  destruct (related_key _ _); [|done].
  by rewrite (proj1 (dispatch_all_ledgers _ _ _)).
Qed.

Lemma post_setEpochMap i url options body extra st :
  setEpochMap (post i url options body extra st).1
  = setInDoubleMap (setEpochMap st) i url (epoch_of (setEpochMap st) i url + 1)%N.
Proof.
  unfold post, incrementSetEpoch. rewrite incrementEpochIn_unfold. simpl.
  destruct (optimistic_truthy _); [|done].
  destruct (related_key _ _); [|done].
  by rewrite (proj2 (dispatch_all_ledgers _ _ _)).
Qed.

Lemma post_epoch i url options body extra st :
  pc_epoch (post i url options body extra st).2
  = (epoch_of (setEpochMap st) i url + 1)%N.
Proof. unfold post, incrementSetEpoch. by rewrite incrementEpochIn_unfold. Qed.

Lemma post_ledgers i url options body extra st :
  ledgers_le st (post i url options body extra st).1.
Proof.
  intros i' u'. rewrite post_getEpochMap, post_setEpochMap, epoch_of_set.
  split; [lia|]. case_decide as H; [injection H as <- <-|]; lia.
Qed.

Lemma rollback_readers_ledgers u st : ledgers_same st (rollback_readers u st).
Proof.
  unfold rollback_readers. apply (foldl_rel ledgers_same).
  intros a [i im]. destruct (getFromDoubleMap _ _ _); [|done].
  destruct (negb _); [apply dispatch_ledgers | done].
Qed.

Lemma post_settled_ledgers c o st : ledgers_le st (post_settled c o st).
Proof.
  unfold post_settled. case_decide; [done|]. destruct o as [result|error].
  - destruct (related_key _ _) as [u|]; [|by apply ledgers_same_le].
    destruct (default false _).
    + apply ledgers_same_le.
      match goal with
      | |- ledgers_same st (foldl ?f (foldl ?g ?a ?l1) ?l2) =>
          transitivity a; [done|]; transitivity (foldl g a l1)
      end.
      * apply dispatch_all_ledgers.
      * by apply (foldl_rel ledgers_same).
    + match goal with
      | |- ledgers_le st (foldl ?f ?a ?l) =>
          transitivity a; [by apply ledgers_same_le | apply triggers_ledgers]
      end.
  - destruct (optimistic_truthy _); [|by apply ledgers_same_le].
    destruct (related_key _ _) as [u|]; [|by apply ledgers_same_le].
    apply ledgers_same_le.
    match goal with
    | |- ledgers_same st (rollback_readers u ?a) =>
        transitivity a; [done | apply rollback_readers_ledgers]
    end.
Qed.

Lemma run_ledgers e st : e ≠ EClearCache → ledgers_le st (run e st).
Proof.
  intros He. destruct e; simpl.
  - done.
  - by apply ledgers_same_le.
  - unfold useGet_effect. destruct (negb _); [apply trigger_ledgers | done].
  - apply trigger_ledgers.
  - apply ledgers_same_le, trigger_settled_ledgers.
  - apply triggers_ledgers.
  - apply ledgers_same_le, usePost_ledgers.
  - apply post_ledgers.
  - apply post_settled_ledgers.
Qed.

Lemma run_all_ledgers es st : EClearCache ∉ es → ledgers_le st (run_all es st).
Proof.
  revert st. induction es as [|e es IH]; intros st Hes; simpl; [done|].
  apply not_elem_of_cons in Hes as [He Hes].
  etrans; [apply run_ledgers; intros ?; by subst | by apply IH].
Qed.

Lemma incrementGetEpoch_unfold i u st :
  incrementGetEpoch i u st
  = (set_getEpochMap
       (setInDoubleMap (getEpochMap st) i u (epoch_of (getEpochMap st) i u + 1)%N) st,
     (epoch_of (getEpochMap st) i u + 1)%N).
Proof. unfold incrementGetEpoch. by rewrite incrementEpochIn_unfold. Qed.

Lemma incrementSetEpoch_unfold i u st :
  incrementSetEpoch i u st
  = (set_setEpochMap
       (setInDoubleMap (setEpochMap st) i u (epoch_of (setEpochMap st) i u + 1)%N) st,
     (epoch_of (setEpochMap st) i u + 1)%N).
Proof. unfold incrementSetEpoch. by rewrite incrementEpochIn_unfold. Qed.

Lemma incrementGetEpoch_times_returns n i u st :
  (incrementGetEpoch_times n i u st).2
  = map (λ k, (epoch_of (getEpochMap st) i u + N.of_nat k)%N) (seq 1 n).
Proof.
  revert st. induction n as [|n IH]; intros st; simpl; [done|].
  rewrite incrementGetEpoch_unfold.
  destruct (incrementGetEpoch_times n i u _) as [st' epochs] eqn:Heq. simpl.
  f_equal.
  pose proof (IH (set_getEpochMap
    (setInDoubleMap (getEpochMap st) i u (epoch_of (getEpochMap st) i u + 1)%N) st))
    as IH'.
  rewrite Heq in IH'. simpl in IH'. rewrite IH'. rewrite epoch_of_set.
  rewrite decide_True by done. rewrite <- (seq_shift n 1), map_map.
  apply map_ext. intros k. lia.
Qed.

Lemma incrementSetEpoch_times_returns n i u st :
  (incrementSetEpoch_times n i u st).2
  = map (λ k, (epoch_of (setEpochMap st) i u + N.of_nat k)%N) (seq 1 n).
Proof.
  revert st. induction n as [|n IH]; intros st; simpl; [done|].
  rewrite incrementSetEpoch_unfold.
  destruct (incrementSetEpoch_times n i u _) as [st' epochs] eqn:Heq. simpl.
  f_equal.
  pose proof (IH (set_setEpochMap
    (setInDoubleMap (setEpochMap st) i u (epoch_of (setEpochMap st) i u + 1)%N) st))
    as IH'.
  rewrite Heq in IH'. simpl in IH'. rewrite IH'. rewrite epoch_of_set.
  rewrite decide_True by done. rewrite <- (seq_shift n 1), map_map.
  apply map_ext. intros k. lia.
Qed.

(** C7. Each ledger increment reads the counter of its pair (0 when there is
    none), stores the successor and returns it; [n] consecutive increments
    return consecutive integers, which start at 1 in a fresh or cleared
    ledger; the start of a read or of a write raises its own counter by one;
    and nothing that runs, [clearCache] apart, lowers any counter of either
    ledger, one event at a time or over a whole run. *)
Theorem epoch_ledger_strictly_increasing
    (e : event) (es : list event) (st : state) (i u : string) (n : nat)
    (t : triggerFn) (options : PostOptions) (body : value)
    (extra : option PostOptions) :
  e ≠ EClearCache →
  EClearCache ∉ es →
  ((incrementGetEpoch i u st).2 = (epoch_of (getEpochMap st) i u + 1)%N
   ∧ getFromDoubleMap (getEpochMap (incrementGetEpoch i u st).1) i u
     = Some (incrementGetEpoch i u st).2)
  ∧ ((incrementSetEpoch i u st).2 = (epoch_of (setEpochMap st) i u + 1)%N
     ∧ getFromDoubleMap (setEpochMap (incrementSetEpoch i u st).1) i u
       = Some (incrementSetEpoch i u st).2)
  ∧ (incrementGetEpoch_times n i u st).2
    = map (λ k, (epoch_of (getEpochMap st) i u + N.of_nat k)%N) (seq 1 n)
  ∧ (incrementSetEpoch_times n i u st).2
    = map (λ k, (epoch_of (setEpochMap st) i u + N.of_nat k)%N) (seq 1 n)
  ∧ (incrementGetEpoch_times n i u (clearCache st)).2 = map N.of_nat (seq 1 n)
  ∧ (incrementSetEpoch_times n i u (clearCache st)).2 = map N.of_nat (seq 1 n)
  ∧ epoch_of (getEpochMap (trigger t st)) (t_instanceId t) (t_url t)
    = (epoch_of (getEpochMap st) (t_instanceId t) (t_url t) + 1)%N
  ∧ epoch_of (setEpochMap (post i u options body extra st).1) i u
    = (epoch_of (setEpochMap st) i u + 1)%N
  ∧ ledgers_le st (run e st)
  ∧ ledgers_le st (run_all es st).
Proof.
  intros He Hes.
  rewrite incrementGetEpoch_unfold, incrementSetEpoch_unfold. simpl.
  rewrite !getFromDoubleMap_set_eq.
  rewrite !incrementGetEpoch_times_returns, !incrementSetEpoch_times_returns.
  rewrite trigger_getEpochMap, post_setEpochMap, !epoch_of_set.
  rewrite !decide_True by done.
  split_and!; try done.
  - by apply run_ledgers.
  - by apply run_all_ledgers.
Qed.

Lemma epoch_ledger_strictly_increasing_witness :
  ETrigger (TriggerFn "G" "/items" false VNull) ≠ EClearCache
  ∧ (EClearCache ∉ [EUsePost "P"; ETrigger (TriggerFn "G" "/items" false VNull);
                    EPost "P" "/items" noPostOptions VNull None])
  ∧ (incrementGetEpoch_times 3 "G" "/items" initial).2 = [1; 2; 3]%N
  ∧ ledgers_le initial
      (run_all [EUsePost "P"; ETrigger (TriggerFn "G" "/items" false VNull);
                EPost "P" "/items" noPostOptions VNull None] initial).
Proof.
  assert (H1 : ETrigger (TriggerFn "G" "/items" false VNull) ≠ EClearCache)
    by discriminate.
  assert (H2 : EClearCache ∉ [EUsePost "P";
                              ETrigger (TriggerFn "G" "/items" false VNull);
                              EPost "P" "/items" noPostOptions VNull None])
    by not_in_events.
  destruct (epoch_ledger_strictly_increasing
              (ETrigger (TriggerFn "G" "/items" false VNull))
              [EUsePost "P"; ETrigger (TriggerFn "G" "/items" false VNull);
               EPost "P" "/items" noPostOptions VNull None]
              initial "G" "/items" 3 (TriggerFn "G" "/items" false VNull)
              noPostOptions VNull None H1 H2)
    as (_ & _ & Hseq & _ & _ & _ & _ & _ & _ & Hrun).
  split; [exact H1|]. split; [exact H2|]. split; [exact Hseq | exact Hrun].
Defined.

(** ** Staleness *)

Lemma epoch_above_not_current (epochMap : dmap N) i u (epoch : N) :
  (epoch < epoch_of epochMap i u)%N → getFromDoubleMap epochMap i u ≠ Some epoch.
Proof. unfold epoch_of. intros Hlt Heq. rewrite Heq in Hlt. simpl in Hlt. lia. Qed.

Lemma trigger_settled_stale t epoch o st :
  getFromDoubleMap (getEpochMap st) (t_instanceId t) (t_url t) ≠ Some epoch →
  trigger_settled t epoch o st = st.
Proof. intros H. unfold trigger_settled. by rewrite decide_True. Qed.

Lemma post_settled_stale c o st :
  getFromDoubleMap (setEpochMap st) (pc_instanceId c) (pc_url c) ≠ Some (pc_epoch c) →
  post_settled c o st = st.
Proof. intros H. unfold post_settled. by rewrite decide_True. Qed.

Lemma trigger_getterCalls t st :
  getterCalls (trigger t st)
  = getterCalls st ++ [(t, (incrementGetEpoch (t_instanceId t) (t_url t) st).2)].
Proof.
  unfold trigger. rewrite incrementGetEpoch_unfold. simpl.
  by destruct (t_keepPreviousData t).
Qed.

(** C1. A read logs, with its getter call, the epoch its ledger increment
    returned, and a write keeps the one its own increment returned.  When the
    awaited call settles, with a result or with an error, and the ledger
    entry of the operation no longer holds that epoch, the state afterwards
    is the state before: no cell, no map, no timer and no getter call
    changes.  In particular an operation that was followed by the start of
    another one for the same instance and key stays without effect whatever
    runs in between, short of [clearCache]. *)
Theorem stale_operation_changes_nothing
    (t t' : triggerFn) (i url : string) (options options' : PostOptions)
    (body body' : value) (extra extra' : option PostOptions)
    (c : postCall) (epoch : N) (o : outcome) (es : list event) (st : state) :
  getterCalls (trigger t st)
  = getterCalls st ++ [(t, (incrementGetEpoch (t_instanceId t) (t_url t) st).2)]
  ∧ pc_epoch (post i url options body extra st).2 = (incrementSetEpoch i url st).2
  ∧ pc_instanceId (post i url options body extra st).2 = i
  ∧ pc_url (post i url options body extra st).2 = url
  ∧ (getFromDoubleMap (getEpochMap st) (t_instanceId t) (t_url t) ≠ Some epoch →
     trigger_settled t epoch o st = st)
  ∧ (getFromDoubleMap (setEpochMap st) (pc_instanceId c) (pc_url c)
     ≠ Some (pc_epoch c) →
     post_settled c o st = st)
  ∧ (t_instanceId t' = t_instanceId t → t_url t' = t_url t → EClearCache ∉ es →
     let epoch1 := (incrementGetEpoch (t_instanceId t) (t_url t) st).2 in
     let st2 := run_all es (trigger t' (trigger t st)) in
     trigger_settled t epoch1 o st2 = st2)
  ∧ (EClearCache ∉ es →
     let c1 := (post i url options body extra st).2 in
     let st1 := (post i url options body extra st).1 in
     let st2 := run_all es (post i url options' body' extra' st1).1 in
     post_settled c1 o st2 = st2).
Proof.
  split_and!.
  - apply trigger_getterCalls.
  - by rewrite post_epoch, incrementSetEpoch_unfold.
  - unfold post. by rewrite incrementSetEpoch_unfold.
  - unfold post. by rewrite incrementSetEpoch_unfold.
  - apply trigger_settled_stale.
  - apply post_settled_stale.
  - intros Hi Hu Hes. simpl. apply trigger_settled_stale.
    apply epoch_above_not_current. rewrite incrementGetEpoch_unfold. simpl.
    pose proof (run_all_ledgers es (trigger t' (trigger t st)) Hes
                  (t_instanceId t) (t_url t)) as [Hle _].
    rewrite (trigger_getEpochMap t'), Hi, Hu, epoch_of_set in Hle.
    rewrite decide_True in Hle by done.
    rewrite trigger_getEpochMap, epoch_of_set, decide_True in Hle by done.
    lia.
  - intros Hes. simpl. apply post_settled_stale.
    assert (pc_instanceId (post i url options body extra st).2 = i) as ->
      by (unfold post; by rewrite incrementSetEpoch_unfold).
    assert (pc_url (post i url options body extra st).2 = url) as ->
      by (unfold post; by rewrite incrementSetEpoch_unfold).
    apply epoch_above_not_current. rewrite post_epoch.
    pose proof (run_all_ledgers es
                  (post i url options' body' extra'
                     (post i url options body extra st).1).1 Hes i url)
      as [_ Hle].
    rewrite post_setEpochMap, epoch_of_set, decide_True in Hle by done.
    rewrite post_setEpochMap, epoch_of_set, decide_True in Hle by done.
    lia.
Qed.

(** C2. [clearCache] empties the trigger registry, the setData registry, the
    read cache and both ledgers, and leaves the cache of confirmed responses
    as it was: the response confirmed before the call is still there after
    it, and a later optimistic post of the same instance that fails rolls its
    data back to that response. *)
Theorem clearCache_keeps_confirmed_responses (st : state) :
  getTriggerMap (clearCache st) = []
  ∧ getSetDataMap (clearCache st) = []
  ∧ getDataMap (clearCache st) = []
  ∧ getEpochMap (clearCache st) = []
  ∧ setEpochMap (clearCache st) = []
  ∧ setDataMap (clearCache st) = setDataMap st
  ∧ getFromDoubleMap (setDataMap (clearCache after_confirmed_post)) "P" "/items"
    = Some (VObj "{id:1}")
  ∧ p_data <$> postHooks optimistic_failure_after_clear !! "P"
    = Some (VObj "{id:1}").
Proof.
  split_and!; [reflexivity .. | |].
  - by vm_compute.
  - by vm_compute.
Qed.

(** ** Frames *)

#[local] Instance only_getHooks_preorder : PreOrder only_getHooks.
Proof. frame_preorder. Qed.
#[local] Instance only_reads_started_preorder : PreOrder only_reads_started.
Proof. frame_preorder. Qed.
#[local] Instance only_getDataMap_preorder : PreOrder only_getDataMap.
Proof. frame_preorder. Qed.

Lemma dispatch_frame d a st : only_getHooks st (dispatch d a st).
Proof. destruct d. by split_and!. Qed.

Lemma dispatch_all_frame (f : dispatcher → setStateAction) ds st :
  only_getHooks st (foldl (λ st d, dispatch d (f d) st) st ds).
Proof. apply (foldl_rel only_getHooks). intros. apply dispatch_frame. Qed.

Lemma rollback_readers_frame u st : only_getHooks st (rollback_readers u st).
Proof.
  unfold rollback_readers. apply (foldl_rel only_getHooks).
  intros a [i im]. destruct (getFromDoubleMap _ _ _); [|done].
  destruct (negb _); [apply dispatch_frame | done].
Qed.

Lemma trigger_frame t st : only_reads_started st (trigger t st).
Proof.
  unfold trigger. rewrite incrementGetEpoch_unfold.
  destruct (t_keepPreviousData t); by split_and!.
Qed.

Lemma triggers_frame ts st :
  only_reads_started st (foldl (λ st t, trigger t st) st ts).
Proof. apply (foldl_rel only_reads_started). intros. apply trigger_frame. Qed.

Lemma overwrite_reads_frame u v ks st :
  only_getDataMap st
    (foldl (λ st k, set_getDataMap (setInDoubleMap (getDataMap st) k u v) st) st ks).
Proof. apply (foldl_rel only_getDataMap). intros. by split_and!. Qed.

(** What a settled, current post leaves in the cells of its own instance. *)
Lemma post_settled_postHooks c o st :
  getFromDoubleMap (setEpochMap st) (pc_instanceId c) (pc_url c) = Some (pc_epoch c) →
  postHooks (post_settled c o st) !! pc_instanceId c
  = (λ h,
       match o with
       | Resolved result => PostHook result false None
       | Rejected error =>
           PostHook
             (if optimistic_truthy (optimisticData (pc_opts c))
              then or_undefined
                     (getFromDoubleMap (setDataMap st) (pc_instanceId c) (pc_url c))
              else p_data h)
             false (Some error)
       end) <$> postHooks st !! pc_instanceId c.
Proof.
  intros Hcur. unfold post_settled. rewrite decide_False by (by intros []).
  destruct o as [result|error].
  - match goal with
    | |- postHooks (match ?k with Some _ => _ | None => ?a end) !! _ = _ =>
        assert (postHooks a !! pc_instanceId c
                = (λ _, PostHook result false None) <$> postHooks st !! pc_instanceId c)
          as Hown
    end.
    { simpl. rewrite !lookup_alter_eq. by destruct (postHooks st !! _). }
    destruct (related_key _ _) as [u|]; [|exact Hown].
    destruct (default false _).
    + match goal with
      | |- postHooks (foldl ?f (foldl ?g ?a ?l1) ?l2) !! _ = _ =>
          pose proof (overwrite_reads_frame u result l2 (foldl g a l1)) as Hf2;
          pose proof (dispatch_all_frame (λ _, ActValue result) l1 a) as Hf1
      end.
      red in Hf1, Hf2. destruct_and!.
      etrans; [|exact Hown]. f_equal. congruence.
    + match goal with
      | |- postHooks (foldl ?f ?a ?l) !! _ = _ =>
          pose proof (triggers_frame l a) as Hf
      end.
      red in Hf. destruct_and!. etrans; [|exact Hown]. f_equal. congruence.
  - destruct (optimistic_truthy _).
    + match goal with
      | |- postHooks (match ?k with Some _ => _ | None => ?a end) !! _ = _ =>
          assert (postHooks a !! pc_instanceId c
                  = (λ _, PostHook
                            (or_undefined
                               (getFromDoubleMap (setDataMap st)
                                  (pc_instanceId c) (pc_url c)))
                            false (Some error)) <$> postHooks st !! pc_instanceId c)
            as Hown
      end.
      { simpl. rewrite !lookup_alter_eq. by destruct (postHooks st !! _). }
      destruct (related_key _ _) as [u|]; [|exact Hown].
      match goal with
      | |- postHooks (rollback_readers u ?a) !! _ = _ =>
          pose proof (rollback_readers_frame u a) as Hf
      end.
      red in Hf. destruct_and!. etrans; [|exact Hown]. f_equal. congruence.
    + simpl. rewrite !lookup_alter_eq. by destruct (postHooks st !! _).
Qed.

(** ** The key of the write epoch *)

Lemma append_nonempty_neq (s : string) (c : ascii) (r : string) :
  (s ++ String c r)%string ≠ s.
Proof. induction s as [|a s IH]; simpl; [done|]. intros [= H]. by apply IH. Qed.

Lemma with_query_neq url q : with_query url q ≠ url.
Proof. unfold with_query. apply append_nonempty_neq. Qed.

Lemma post_call_fields i url options body extra st :
  (post i url options body extra st).2
  = PostCall i url (epoch_of (setEpochMap st) i url + 1)%N
      (Object_assign options extra)
      (currentUrl_of url (Object_assign options extra))
      (currentGetUrl_of (Object_assign options extra)).
Proof. unfold post. by rewrite incrementSetEpoch_unfold. Qed.

(** C3, as the claim states it, fails: after a post with the query [a=1] the
    write ledger holds nothing under the effective key ["/items?a=1"] and
    holds the captured epoch under the address ["/items"]; the post commits
    its response although the entry under the effective key is not the
    captured epoch; and a later post of the instance without query
    parameters, whose effective key is another one, makes it stale. *)
Lemma post_epoch_not_under_effective_key :
  pc_currentUrl post_with_query.2 = "/items?a=1"
  ∧ getFromDoubleMap (setEpochMap post_with_query.1) "P" "/items?a=1" = None
  ∧ getFromDoubleMap (setEpochMap post_with_query.1) "P" "/items"
    = Some (pc_epoch post_with_query.2)
  ∧ p_data <$> postHooks (post_settled post_with_query.2 (Resolved (VObj "{id:1}"))
                            post_with_query.1) !! "P"
    = Some (VObj "{id:1}")
  ∧ post_settled post_with_query.2 (Resolved (VObj "{id:1}"))
      post_with_query_then_without
    = post_with_query_then_without.
Proof.
  split_and!.
  - by vm_compute.
  - by vm_compute.
  - by vm_compute.
  - by vm_compute.
  - apply post_settled_stale. by vm_compute.
Qed.

(** C3, amended. The write epoch of a post is obtained for the instance and
    the address the hook was given, without the query parameters; the
    effective key, which differs from the address as soon as query parameters
    are configured, is what the poster is called with.  The increment touches
    no other ledger entry, and when the post settles it is that same entry,
    under the address, that is compared with the captured epoch: the post
    does nothing when they differ and commits when they agree. *)
Theorem post_epoch_keyed_by_address
    (i url : string) (options : PostOptions) (body : value)
    (extra : option PostOptions) (st : state) :
  let c := (post i url options body extra st).2 in
  let st1 := (post i url options body extra st).1 in
  pc_currentUrl c = currentUrl_of url (Object_assign options extra)
  ∧ (∀ q, mjoin (post_query (Object_assign options extra)) = Some q →
          pc_currentUrl c = with_query url q ∧ pc_currentUrl c ≠ url)
  ∧ pc_epoch c = (incrementSetEpoch i url st).2
  ∧ getFromDoubleMap (setEpochMap st1) i url = Some (pc_epoch c)
  ∧ (∀ i' u', (i, url) ≠ (i', u') →
              getFromDoubleMap (setEpochMap st1) i' u'
              = getFromDoubleMap (setEpochMap st) i' u')
  ∧ (∀ o st2, getFromDoubleMap (setEpochMap st2) i url ≠ Some (pc_epoch c) →
              post_settled c o st2 = st2)
  ∧ (∀ result st2 h,
        getFromDoubleMap (setEpochMap st2) i url = Some (pc_epoch c) →
        postHooks st2 !! i = Some h →
        postHooks (post_settled c (Resolved result) st2) !! i
        = Some (PostHook result false None))
  ∧ (∀ error st2 h,
        getFromDoubleMap (setEpochMap st2) i url = Some (pc_epoch c) →
        postHooks st2 !! i = Some h →
        p_error <$> postHooks (post_settled c (Rejected error) st2) !! i
        = Some (Some error)).
Proof.
  simpl. rewrite post_call_fields, post_setEpochMap, incrementSetEpoch_unfold. simpl.
  split_and!.
  - done.
  - intros q Hq. unfold currentUrl_of. rewrite Hq. simpl.
    split; [done | apply with_query_neq].
  - done.
  - apply getFromDoubleMap_set_eq.
  - intros i' u' Hne. by apply getFromDoubleMap_set_ne.
  - intros o st2 Hstale. by apply post_settled_stale.
  - intros result st2 h Hcur Hh.
    match goal with
    | |- postHooks (post_settled ?c _ _) !! _ = _ =>
        pose proof (post_settled_postHooks c (Resolved result) st2 Hcur) as Hp
    end.
    simpl in Hp. rewrite Hp, Hh. done.
  - intros error st2 h Hcur Hh.
    match goal with
    | |- _ <$> postHooks (post_settled ?c _ _) !! _ = _ =>
        pose proof (post_settled_postHooks c (Rejected error) st2 Hcur) as Hp
    end.
    simpl in Hp. rewrite Hp, Hh. done.
Qed.

(** ** Optimistic data *)

Lemma Object_assign_without_optimisticData options extra :
  Object_assign (without_optimisticData options) (without_optimisticData <$> extra)
  = without_optimisticData (Object_assign options extra).
Proof. by destruct extra. Qed.

(** C9. When the merged options hold a falsy [optimisticData] ([0], the empty
    string, [false], [null], [undefined], [NaN]), a post runs as it does with
    no [optimisticData] in the options at all: its synchronous part ends in
    the same state, which is the one reached by the ledger increment followed
    by setting [isPosting], so that no cell receives optimistic data; the
    settled part behaves the same on every outcome; and a failure publishes
    the error and clears [isPosting] without rolling anything back. *)
Theorem falsy_optimisticData_is_none
    (i url : string) (options : PostOptions) (body : value)
    (extra : option PostOptions) (st : state) :
  optimistic_truthy (optimisticData (Object_assign options extra)) = false →
  let c := (post i url options body extra st).2 in
  let c0 := (post i url (without_optimisticData options) body
               (without_optimisticData <$> extra) st).2 in
  (optimistic_truthy (Some (OptValue (VNum 0))) = false
   ∧ optimistic_truthy (Some (OptValue (VStr ""))) = false
   ∧ optimistic_truthy (Some (OptValue (VBool false))) = false
   ∧ optimistic_truthy (Some (OptValue VNull)) = false
   ∧ optimistic_truthy (Some (OptValue VUndefined)) = false
   ∧ optimistic_truthy (Some (OptValue VNaN)) = false)
  ∧ (post i url options body extra st).1
    = (post i url (without_optimisticData options) body
         (without_optimisticData <$> extra) st).1
  ∧ (post i url options body extra st).1
    = post_setIsPosting i true (incrementSetEpoch i url st).1
  ∧ (∀ o st', post_settled c o st' = post_settled c0 o st')
  ∧ (∀ error st',
        getFromDoubleMap (setEpochMap st') i url = Some (pc_epoch c) →
        post_settled c (Rejected error) st'
        = post_setIsPosting i false (post_setError i (Some error) st')).
Proof.
  intros Hfalsy. simpl. rewrite !post_call_fields.
  rewrite Object_assign_without_optimisticData.
  split_and!; [reflexivity .. | | | |].
  - unfold post. rewrite incrementSetEpoch_unfold.
    rewrite Object_assign_without_optimisticData. simpl. by rewrite Hfalsy.
  - unfold post. rewrite incrementSetEpoch_unfold. simpl. by rewrite Hfalsy.
  - intros o st'. unfold post_settled. simpl. rewrite Hfalsy.
    case_decide; [done|]. by destruct o.
  - intros error st' Hcur. unfold post_settled. simpl.
    rewrite decide_False by (by intros []). by rewrite Hfalsy.
Qed.

Lemma falsy_optimisticData_is_none_witness :
  optimistic_truthy
    (optimisticData
       (Object_assign noPostOptions
          (Some {| post_query := None; getUrl := None; getterQuery := None;
                   optimisticData := Some (OptValue (VNum 0));
                   useResponseData := None |}))) = false
  ∧ p_isPosting <$>
      postHooks
        (post "P" "/items" noPostOptions VNull
           (Some {| post_query := None; getUrl := None; getterQuery := None;
                    optimisticData := Some (OptValue (VNum 0));
                    useResponseData := None |})
           (usePost "P" initial)).1 !! "P"
    = Some true.
Proof.
  assert (H : optimistic_truthy
                (optimisticData
                   (Object_assign noPostOptions
                      (Some {| post_query := None; getUrl := None;
                               getterQuery := None;
                               optimisticData := Some (OptValue (VNum 0));
                               useResponseData := None |}))) = false)
    by reflexivity.
  destruct (falsy_optimisticData_is_none "P" "/items" noPostOptions VNull
              (Some {| post_query := None; getUrl := None; getterQuery := None;
                       optimisticData := Some (OptValue (VNum 0));
                       useResponseData := None |})
              (usePost "P" initial) H) as (_ & _ & Hstart & _ & _).
  split; [exact H|]. rewrite Hstart. by vm_compute.
Defined.

(** C10. When a post that applied optimistic data fails while its epoch is
    current, and the cache of confirmed responses holds nothing for the
    instance under the post address, the data of the posting instance
    becomes [undefined]. *)
Theorem rollback_without_confirmed_response
    (c : postCall) (error : err) (st : state) (h : postHook) :
  getFromDoubleMap (setEpochMap st) (pc_instanceId c) (pc_url c) = Some (pc_epoch c) →
  optimistic_truthy (optimisticData (pc_opts c)) = true →
  getFromDoubleMap (setDataMap st) (pc_instanceId c) (pc_url c) = None →
  postHooks st !! pc_instanceId c = Some h →
  postHooks (post_settled c (Rejected error) st) !! pc_instanceId c
  = Some (PostHook VUndefined false (Some error)).
Proof.
  intros Hcur Hopt Hnone Hh.
  rewrite (post_settled_postHooks c (Rejected error) st Hcur).
  by rewrite Hh, Hopt, Hnone.
Qed.

Lemma rollback_without_confirmed_response_witness :
  p_data <$> postHooks (usePost "P" initial) !! "P" = Some VNull
  ∧ postHooks first_optimistic_post.1 !! "P"
    = Some (PostHook (VObj "{id:2}") false None)
  ∧ postHooks (post_settled first_optimistic_post.2 (Rejected "Post failed")
                 first_optimistic_post.1) !! "P"
    = Some (PostHook VUndefined false (Some "Post failed")).
Proof.
  split; [by vm_compute|]. split; [by vm_compute|].
  apply (rollback_without_confirmed_response first_optimistic_post.2 "Post failed"
           first_optimistic_post.1 (PostHook (VObj "{id:2}") false None)).
  - by vm_compute.
  - by vm_compute.
  - by vm_compute.
  - by vm_compute.
Defined.

(** ** The first render of an observer *)

Lemma defined_at_value_Some url (instanceMap : gmap string value) v :
  defined_at url instanceMap = Some v ↔ instanceMap !! url = Some v ∧ v ≠ VUndefined.
Proof.
  unfold defined_at, is_undefined, value_undefinable.
  destruct (instanceMap !! url) as [w|].
  - case_bool_decide as Hw.
    + subst w. split; [done | by intros [[= <-] ?]].
    + split; [by intros [= ->] | by intros [[= ->] _]].
  - split; [done | by intros [? _]].
Qed.

Lemma getAnyFromUrl_first {T} `{!Undefinable T} (map : dmap T) url v :
  getAnyFromUrl map url = Some v →
  ∃ l1 j im l2,
    map = l1 ++ (j, im) :: l2 ∧ defined_at url im = Some v
    ∧ Forall (λ e, defined_at url e.2 = None) l1.
Proof.
  induction map as [|[j im] map IH]; simpl; [done|].
  destruct (defined_at url im) as [w|] eqn:Hdef.
  - intros [= ->]. exists [], j, im, map. by split_and!.
  - intros (l1 & j' & im' & l2 & -> & Hd & Hall)%IH.
    exists ((j, im) :: l1), j', im', l2. split_and!; [done | done |].
    by constructor.
Qed.

Lemma getAnyFromUrl_none {T} `{!Undefinable T} (map : dmap T) url :
  getAnyFromUrl map url = None ↔ Forall (λ e, defined_at url e.2 = None) map.
Proof.
  induction map as [|[j im] map IH]; simpl; [by split|].
  rewrite Forall_cons. simpl. destruct (defined_at url im) as [w|].
  - split; [done | by intros [? _]].
  - rewrite IH. split; [by intros ?; split | by intros [_ ?]].
Qed.

(** C8. On the first render of an observer the [data] cell starts as
    follows.  With [keepPreviousData], when some instance has a cached value
    for the key that is not [undefined], it is the value of the first such
    entry of the read cache in iteration order, which belongs to another
    instance; when there is none, it is [null].  Without [keepPreviousData] it
    is [null].  In every case [isGetting] starts as the negation of the
    truthiness of that data, and [error] as [null]. *)
Theorem useGet_first_render
    (i url : string) (options : GetOptions) (st : state) :
  getHooks st !! i = None →
  i ∉ JsMap.keys (getDataMap st) →
  let key := effective_url url (get_query options) in
  ∃ data,
    getHooks (useGet i url options st).1 !! i
    = Some (GetHook data (negb (truthy data)) None)
    ∧ (keepPreviousData options = false → data = VNull)
    ∧ (keepPreviousData options = true →
       (∀ v, getAnyFromUrl (getDataMap st) key = Some v →
             data = v
             ∧ ∃ l1 j im l2,
                 getDataMap st = l1 ++ (j, im) :: l2
                 ∧ j ≠ i ∧ im !! key = Some v ∧ v ≠ VUndefined
                 ∧ Forall (λ e, defined_at key e.2 = None) l1)
       ∧ (getAnyFromUrl (getDataMap st) key = None →
          data = VNull
          ∧ ∀ j im v, (j, im) ∈ getDataMap st → im !! key = Some v → v = VUndefined)).
Proof.
  intros Hnew Hfresh key.
  exists (useGet_initial_data key options st). split_and!.
  - unfold useGet. fold key. rewrite Hnew. simpl. by rewrite lookup_insert_eq.
  - intros Hkeep. unfold useGet_initial_data. by rewrite Hkeep.
  - intros Hkeep. unfold useGet_initial_data. rewrite Hkeep. split.
    + intros v Hany. rewrite Hany. simpl.
      destruct (getAnyFromUrl_first _ _ _ Hany) as (l1 & j & im & l2 & Heq & Hd & Hall).
      apply defined_at_value_Some in Hd as [Hv Hdef].
      split; [by destruct v|].
      exists l1, j, im, l2. split_and!; try done.
      intros ->. apply Hfresh. unfold JsMap.keys. rewrite Heq, fmap_app.
      apply elem_of_app. right. apply list_elem_of_here.
    + intros Hnone. rewrite Hnone. split; [done|].
      intros j im v Hin Hv. apply getAnyFromUrl_none in Hnone.
      rewrite Forall_forall in Hnone. specialize (Hnone _ Hin). simpl in Hnone.
      destruct (decide (v = VUndefined)) as [|Hne]; [done|].
      assert (defined_at key im = Some v) as Hd by by apply defined_at_value_Some.
      congruence.
Qed.

Lemma useGet_first_render_witness :
  getHooks after_first_read !! "G2" = None
  ∧ ("G2" ∉ JsMap.keys (getDataMap after_first_read))
  ∧ getHooks (useGet "G2" "/cached" keepingGet after_first_read).1 !! "G2"
    = Some (GetHook (VObj "{message}") false None).
Proof.
  assert (H1 : getHooks after_first_read !! "G2" = None) by by vm_compute.
  assert (H2 : "G2" ∉ JsMap.keys (getDataMap after_first_read)).
  { vm_compute. intros H. apply elem_of_cons in H as [H|H]; [discriminate H|].
    by apply elem_of_nil in H. }
  destruct (useGet_first_render "G2" "/cached" keepingGet after_first_read H1 H2)
    as (data & Hhook & _ & Hkeep).
  destruct (Hkeep eq_refl) as [Hsome _].
  assert (Hany : getAnyFromUrl (getDataMap after_first_read)
                   (effective_url "/cached" (get_query keepingGet))
                 = Some (VObj "{message}")) by by vm_compute.
  destruct (Hsome _ Hany) as [-> _].
  split; [exact H1|]. split; [exact H2 | exact Hhook].
Defined.

(** ** A failed read *)

(** The [catch] block of [trigger] when its epoch is current: the retry
    follows the [data] the closure captured. *)
Lemma trigger_settled_rejected t epoch error st :
  getFromDoubleMap (getEpochMap st) (t_instanceId t) (t_url t) = Some epoch →
  trigger_settled t epoch (Rejected error) st
  = set_timers
      (timers st ++ (if truthy (t_data t) then [] else [(1000%N, t)]))
      (get_setIsGetting (t_instanceId t) false
         (get_setError (t_instanceId t) (Some error) st)).
Proof.
  intros Hcur. unfold trigger_settled. rewrite decide_False by (by intros []).
  destruct (truthy (t_data t)); simpl; [|done].
  rewrite app_nil_r. by destruct st.
Qed.

Lemma useGet_closure_data i url options st :
  g_data <$> getHooks (useGet i url options st).1 !! i
  = Some (t_data (useGet i url options st).2).
Proof. unfold useGet. simpl. by rewrite lookup_insert_eq. Qed.

(** C6, as the claim states it, fails, in two ways.  The closure of the first
    render of ["G"] captured [data = null]; when its read fails, still
    current, ["G"] holds the response a post pushed to it in the meantime,
    and a retry is scheduled all the same.  And an observer whose data is
    the fetched value [0] gets a retry as well. *)
Lemma retry_scheduled_while_holding_data :
  (getFromDoubleMap (getEpochMap read_overtaken_by_push.1) "G" "/items" = Some 1%N
   ∧ g_data <$> getHooks read_overtaken_by_push.1 !! "G" = Some (VObj "[1]")
   ∧ timers read_overtaken_by_push.1 = []
   ∧ timers (trigger_settled read_overtaken_by_push.2 1 (Rejected "Fetch failed")
               read_overtaken_by_push.1)
     = [(1000%N, TriggerFn "G" "/items" false VNull)])
  ∧ (getFromDoubleMap (getEpochMap read_of_zero.1) "G" "/count" = Some 2%N
     ∧ g_data <$> getHooks read_of_zero.1 !! "G" = Some (VNum 0)
     ∧ timers read_of_zero.1 = []
     ∧ timers (trigger_settled read_of_zero.2 2 (Rejected "Fetch failed")
                 read_of_zero.1)
       = [(1000%N, TriggerFn "G" "/count" false (VNum 0))]).
Proof.
  split.
  - split_and!; by vm_compute.
  - split_and!; by vm_compute.
Qed.

(** C6, amended. When the getter of a read fails while the epoch of the read
    is current, the error is published and [isGetting] is cleared, whatever
    the data of the instance is by then.  The retry is decided by the [data]
    the closure of the trigger captured at its render: one retry of that
    trigger is scheduled, 1000 ms later, when that value is falsy, and none
    when it is truthy.  So when the data of the instance is still the one the
    closure captured, exactly one retry is scheduled if and only if the data
    of the instance is falsy, and none is scheduled if and only if it is
    truthy.  Nothing else changes: the data of the instance, the other
    instances, the getter calls and the read cache are left as they are. *)
Theorem failed_read_retries_without_data
    (t : triggerFn) (epoch : N) (error : err) (st : state) (h : getHook) :
  getFromDoubleMap (getEpochMap st) (t_instanceId t) (t_url t) = Some epoch →
  getHooks st !! t_instanceId t = Some h →
  getHooks (trigger_settled t epoch (Rejected error) st) !! t_instanceId t
  = Some (GetHook (g_data h) false (Some error))
  ∧ (∀ j, j ≠ t_instanceId t →
          getHooks (trigger_settled t epoch (Rejected error) st) !! j
          = getHooks st !! j)
  ∧ timers (trigger_settled t epoch (Rejected error) st)
    = timers st ++ (if truthy (t_data t) then [] else [(1000%N, t)])
  ∧ (g_data h = t_data t →
     (timers (trigger_settled t epoch (Rejected error) st)
      = timers st ++ [(1000%N, t)] ↔ truthy (g_data h) = false)
     ∧ (timers (trigger_settled t epoch (Rejected error) st) = timers st
        ↔ truthy (g_data h) = true))
  ∧ getterCalls (trigger_settled t epoch (Rejected error) st) = getterCalls st
  ∧ getDataMap (trigger_settled t epoch (Rejected error) st) = getDataMap st.
Proof.
  intros Hcur Hh. rewrite (trigger_settled_rejected _ _ _ _ Hcur).
  simpl. rewrite !lookup_alter_eq, Hh. simpl.
  split_and!; try done.
  - intros j Hj. by rewrite !lookup_alter_ne.
  - intros Hdata. rewrite Hdata. split.
    + destruct (truthy (t_data t)); [|done].
      rewrite app_nil_r. split; [|done].
      intros Heq. apply (f_equal length) in Heq. rewrite length_app in Heq.
      simpl in Heq. lia.
    + destruct (truthy (t_data t)); [by rewrite app_nil_r|].
      split; [|done].
      intros Heq. apply (f_equal length) in Heq. rewrite length_app in Heq.
      simpl in Heq. lia.
Qed.

Lemma failed_read_retries_without_data_witness :
  (getFromDoubleMap (getEpochMap read_of_zero.1)
     (t_instanceId read_of_zero.2) (t_url read_of_zero.2) = Some 2%N
   ∧ getHooks read_of_zero.1 !! t_instanceId read_of_zero.2
     = Some (GetHook (VNum 0) true None)
   ∧ getHooks (trigger_settled read_of_zero.2 2 (Rejected "Fetch failed")
                 read_of_zero.1) !! t_instanceId read_of_zero.2
     = Some (GetHook (VNum 0) false (Some "Fetch failed"))
   ∧ (timers (trigger_settled read_of_zero.2 2 (Rejected "Fetch failed")
                read_of_zero.1)
      = timers read_of_zero.1 ++ [(1000%N, read_of_zero.2)]
      ↔ truthy (g_data (GetHook (VNum 0) true None)) = false))
  ∧ (getFromDoubleMap (getEpochMap read_overtaken_by_push.1)
       (t_instanceId read_overtaken_by_push.2) (t_url read_overtaken_by_push.2)
     = Some 1%N
     ∧ getHooks read_overtaken_by_push.1 !! t_instanceId read_overtaken_by_push.2
       = Some (GetHook (VObj "[1]") true None)
     ∧ getHooks (trigger_settled read_overtaken_by_push.2 1
                   (Rejected "Fetch failed") read_overtaken_by_push.1)
         !! t_instanceId read_overtaken_by_push.2
       = Some (GetHook (VObj "[1]") false (Some "Fetch failed"))).
Proof.
  assert (H1 : getFromDoubleMap (getEpochMap read_of_zero.1)
                 (t_instanceId read_of_zero.2) (t_url read_of_zero.2) = Some 2%N)
    by by vm_compute.
  assert (H2 : getHooks read_of_zero.1 !! t_instanceId read_of_zero.2
               = Some (GetHook (VNum 0) true None)) by by vm_compute.
  assert (H3 : g_data (GetHook (VNum 0) true None) = t_data read_of_zero.2)
    by by vm_compute.
  assert (K1 : getFromDoubleMap (getEpochMap read_overtaken_by_push.1)
                 (t_instanceId read_overtaken_by_push.2)
                 (t_url read_overtaken_by_push.2) = Some 1%N)
    by by vm_compute.
  assert (K2 : getHooks read_overtaken_by_push.1
                 !! t_instanceId read_overtaken_by_push.2
               = Some (GetHook (VObj "[1]") true None)) by by vm_compute.
  split.
  - destruct (failed_read_retries_without_data read_of_zero.2 2 "Fetch failed"
                read_of_zero.1 (GetHook (VNum 0) true None) H1 H2)
      as (Hhook & _ & _ & Hretry & _).
    split; [exact H1|]. split; [exact H2|]. split; [exact Hhook|].
    exact (proj1 (Hretry H3)).
  - split; [exact K1|]. split; [exact K2|].
    exact (proj1 (failed_read_retries_without_data read_overtaken_by_push.2 1
                    "Fetch failed" read_overtaken_by_push.1
                    (GetHook (VObj "[1]") true None) K1 K2)).
Defined.

(** ** The invariant of the registries *)

Lemma registries_wf_same st st' :
  getDataMap st' = getDataMap st → getSetDataMap st' = getSetDataMap st →
  registries_wf st → registries_wf st'.
Proof. intros Hd Hs [Hnd Hwf]. split; [by rewrite Hd | by rewrite Hs]. Qed.

Lemma overwrite_reads_getDataMap u v ks st :
  getDataMap
    (foldl (λ st k, set_getDataMap (setInDoubleMap (getDataMap st) k u v) st) st ks)
  = foldl (λ m k, setInDoubleMap m k u v) (getDataMap st) ks.
Proof. revert st. induction ks as [|k ks IH]; intros st; simpl; [done|]. by rewrite IH. Qed.

Lemma overwrite_NoDup u (v : value) ks (m : dmap value) :
  NoDup (JsMap.keys m) →
  NoDup (JsMap.keys (foldl (λ m k, setInDoubleMap m k u v) m ks)).
Proof.
  revert m. induction ks as [|k ks IH]; intros m Hnd; simpl; [done|].
  by apply IH, setInDoubleMap_NoDup.
Qed.

Lemma post_registries i url options body extra st :
  getDataMap (post i url options body extra st).1 = getDataMap st
  ∧ getSetDataMap (post i url options body extra st).1 = getSetDataMap st.
Proof.
  unfold post. rewrite incrementSetEpoch_unfold. simpl.
  destruct (optimistic_truthy _); [|done].
  destruct (related_key _ _) as [u|]; [|done].
  match goal with
  | |- context [foldl ?f ?a ?l] =>
      pose proof (dispatch_all_frame
                    (λ _, pushed_optimistic_action
                            (optimisticData (Object_assign options extra))) l a) as Hf
  end.
  red in Hf. destruct_and!. split; etrans; eauto.
Qed.

Lemma post_settled_getSetDataMap c o st :
  getSetDataMap (post_settled c o st) = getSetDataMap st.
Proof.
  unfold post_settled. case_decide; [done|]. destruct o as [result|error].
  - destruct (related_key _ _) as [u|]; [|done].
    destruct (default false _).
    + match goal with
      | |- getSetDataMap (foldl ?f (foldl ?g ?a ?l1) ?l2) = _ =>
          pose proof (overwrite_reads_frame u result l2 (foldl g a l1)) as Hf2;
          pose proof (dispatch_all_frame (λ _, ActValue result) l1 a) as Hf1
      end.
      red in Hf1, Hf2. destruct_and!. etrans; [eassumption|]. etrans; eauto.
    + match goal with
      | |- getSetDataMap (foldl ?f ?a ?l) = _ => pose proof (triggers_frame l a) as Hf
      end.
      red in Hf. destruct_and!. etrans; eauto.
  - destruct (optimistic_truthy _); [|done].
    destruct (related_key _ _) as [u|]; [|done].
    match goal with
    | |- getSetDataMap (rollback_readers u ?a) = _ =>
        pose proof (rollback_readers_frame u a) as Hf
    end.
    red in Hf. destruct_and!. etrans; eauto.
Qed.

Lemma post_settled_getDataMap_NoDup c o st :
  NoDup (JsMap.keys (getDataMap st)) →
  NoDup (JsMap.keys (getDataMap (post_settled c o st))).
Proof.
  intros Hnd. unfold post_settled. case_decide; [done|]. destruct o as [result|error].
  - destruct (related_key _ _) as [u|]; [|done].
    destruct (default false _).
    + rewrite overwrite_reads_getDataMap. apply overwrite_NoDup.
      match goal with
      | |- context [foldl ?g ?a ?l1] =>
          pose proof (dispatch_all_frame (λ _, ActValue result) l1 a) as Hf1
      end.
      red in Hf1. destruct_and!.
      match goal with H : getDataMap _ = getDataMap _ |- _ => by rewrite H end.
    + match goal with
      | |- context [foldl ?f ?a ?l] => pose proof (triggers_frame l a) as Hf
      end.
      red in Hf. destruct_and!.
      match goal with H : getDataMap _ = getDataMap _ |- _ => by rewrite H end.
  - destruct (optimistic_truthy _); [|done].
    destruct (related_key _ _) as [u|]; [|done].
    match goal with
    | |- context [rollback_readers u ?a] =>
        pose proof (rollback_readers_frame u a) as Hf
    end.
    red in Hf. destruct_and!.
    match goal with H : getDataMap _ = getDataMap _ |- _ => by rewrite H end.
Qed.

Lemma registries_wf_initial : registries_wf initial.
Proof. split; [apply NoDup_nil_2 | done]. Qed.

Lemma registries_wf_run e st : registries_wf st → registries_wf (run e st).
Proof.
  intros Hwf. destruct e; simpl.
  - split; [apply NoDup_nil_2 | done].
  - destruct Hwf as [Hnd Hset]. split; [done|].
    intros i u d. simpl. rewrite getFromDoubleMap_set.
    case_decide as Heq; [|apply Hset].
    injection Heq as <- <-. by intros [= <-].
  - unfold useGet_effect. destruct (negb _); [|done].
    pose proof (trigger_frame t st) as Hf. red in Hf. destruct_and!.
    by eapply registries_wf_same.
  - pose proof (trigger_frame t st) as Hf. red in Hf. destruct_and!.
    by eapply registries_wf_same.
  - unfold trigger_settled. case_decide; [done|]. destruct o as [result|error].
    + destruct Hwf as [Hnd Hset]. split; [|done]. simpl.
      by apply setInDoubleMap_NoDup.
    + by destruct (negb _).
  - pose proof (triggers_frame
                  (getAllFromUrl (getTriggerMap st) (effective_url url q)) st) as Hf.
    red in Hf. destruct_and!. by eapply registries_wf_same.
  - unfold usePost. by destruct (postHooks st !! instanceId).
  - destruct (post_registries instanceId url options body extraOptions st).
    by eapply registries_wf_same.
  - destruct Hwf as [Hnd Hset]. split.
    + by apply post_settled_getDataMap_NoDup.
    + by rewrite post_settled_getSetDataMap.
Qed.

Lemma registries_wf_run_all es st : registries_wf st → registries_wf (run_all es st).
Proof.
  revert st. induction es as [|e es IH]; intros st Hwf; simpl; [done|].
  by apply IH, registries_wf_run.
Qed.

(** ** Pushing to the registered setters *)

Lemma elem_of_getAllFromUrl {T} `{!Undefinable T} (map : dmap T) i u x :
  getFromDoubleMap map i u = Some x → is_undefined x = false →
  x ∈ getAllFromUrl map u.
Proof.
  unfold getFromDoubleMap, getAllFromUrl, JsMap.values.
  intros Hget Hdef.
  destruct (JsMap.get i map) as [im|] eqn:Him; [|done]. simpl in Hget.
  apply jsmap_get_elem_of in Him.
  apply list_elem_of_omap. exists im. split.
  - apply list_elem_of_fmap. by exists (i, im).
  - unfold defined_at. by rewrite Hget, Hdef.
Qed.


Lemma overwrite_lookup u (v : value) ks (m : dmap value) j u' :
  getFromDoubleMap (foldl (λ m k, setInDoubleMap m k u v) m ks) j u'
  = if decide (u' = u ∧ j ∈ ks) then Some v else getFromDoubleMap m j u'.
Proof.
  revert m. induction ks as [|k ks IH]; intros m; cbn [foldl].
  - rewrite decide_False; [done|]. intros [_ H]. by apply elem_of_nil in H.
  - rewrite IH, getFromDoubleMap_set.
    destruct (decide (u' = u ∧ j ∈ ks)) as [[-> Hin]|Hn].
    + rewrite decide_True; [done|]. split; [done | by apply list_elem_of_further].
    + destruct (decide ((k, u) = (j, u'))) as [[= -> ->]|Hne].
      * rewrite decide_True; [done|]. split; [done | apply list_elem_of_here].
      * rewrite decide_False; [done|].
        intros [-> [->|Hin]%elem_of_cons]; [done|]. by apply Hn.
Qed.

Lemma triggers_getterCalls ts st :
  (getterCalls (foldl (λ st t, trigger t st) st ts)).*1 = (getterCalls st).*1 ++ ts.
Proof.
  revert st. induction ts as [|t ts IH]; intros st; simpl.
  - by rewrite app_nil_r.
  - rewrite IH, trigger_getterCalls, fmap_app. simpl. by rewrite <- app_assoc.
Qed.

(** The rollback loop, instance by instance. *)
Lemma rollback_loop_lookup u j (l : dmap value) st :
  NoDup (JsMap.keys l) →
  (∀ i d, getFromDoubleMap (getSetDataMap st) i u = Some d → d = SetDataOf i) →
  getHooks
    (foldl (λ st entry,
              let '(currentInstanceId, instanceMap) := entry in
              let savedData := or_undefined (instanceMap !! u) in
              match getFromDoubleMap (getSetDataMap st) currentInstanceId u with
              | Some setDataFn =>
                  if negb (is_undefined savedData)
                  then dispatch setDataFn (ActValue savedData) st
                  else st
              | None => st
              end) st l) !! j
  = match getFromDoubleMap l j u, getFromDoubleMap (getSetDataMap st) j u with
    | Some v, Some _ =>
        if is_undefined v then getHooks st !! j
        else (λ h, GetHook v (g_isGetting h) (g_error h)) <$> getHooks st !! j
    | _, _ => getHooks st !! j
    end.
Proof.
  revert st. induction l as [|[k im] l IH]; intros st Hnd Hwf; [done|].
  unfold JsMap.keys in Hnd. rewrite fmap_cons in Hnd. simpl in Hnd.
  apply NoDup_cons in Hnd as [Hk Hnd].
  simpl foldl. unfold getFromDoubleMap at 3. simpl JsMap.get.
  destruct (decide (k = j)) as [->|Hne].
  - assert (JsMap.get j l = None) as Hnone by by apply jsmap_get_None.
    destruct (getFromDoubleMap (getSetDataMap st) j u) as [d|] eqn:Hreg.
    + assert (d = SetDataOf j) as -> by by eapply Hwf.
      destruct (im !! u) as [v|] eqn:Hv; simpl.
      * destruct (is_undefined v) eqn:Hundef; simpl.
        -- rewrite IH by done. unfold getFromDoubleMap at 1. rewrite Hnone. simpl.
           by rewrite ?Hv, ?Hundef.
        -- rewrite IH by done. unfold getFromDoubleMap at 1. rewrite Hnone. simpl.
           rewrite lookup_alter_eq. by rewrite ?Hv, ?Hundef.
      * rewrite IH by done. unfold getFromDoubleMap at 1. rewrite Hnone. simpl.
        by rewrite ?Hv.
    + rewrite IH by done. unfold getFromDoubleMap at 1. rewrite Hnone. simpl.
      rewrite ?Hreg. by destruct (im !! u).
  - fold (getFromDoubleMap l j u).
    destruct (getFromDoubleMap (getSetDataMap st) k u) as [d|] eqn:Hreg.
    + assert (d = SetDataOf k) as -> by by eapply Hwf.
      destruct (negb (is_undefined (or_undefined (im !! u)))).
      * rewrite IH by done. simpl. by rewrite lookup_alter_ne.
      * by rewrite IH.
    + by rewrite IH.
Qed.

Lemma rollback_readers_lookup u j st :
  registries_wf st →
  getHooks (rollback_readers u st) !! j
  = match getFromDoubleMap (getDataMap st) j u,
          getFromDoubleMap (getSetDataMap st) j u with
    | Some v, Some _ =>
        if is_undefined v then getHooks st !! j
        else (λ h, GetHook v (g_isGetting h) (g_error h)) <$> getHooks st !! j
    | _, _ => getHooks st !! j
    end.
Proof.
  intros [Hnd Hwf]. unfold rollback_readers. apply rollback_loop_lookup; [done|].
  intros i d. apply Hwf.
Qed.

(** ** A settled post and the readers of the related key *)

(** The state a current post reaches by its own updates on failure, before
    the rollback loop. *)
Lemma post_settled_rejected_optimistic c error st :
  getFromDoubleMap (setEpochMap st) (pc_instanceId c) (pc_url c) = Some (pc_epoch c) →
  optimistic_truthy (optimisticData (pc_opts c)) = true →
  ∃ st1,
    getHooks st1 = getHooks st ∧ getDataMap st1 = getDataMap st
    ∧ getSetDataMap st1 = getSetDataMap st
    ∧ post_settled c (Rejected error) st
      = match related_key (pc_opts c) (pc_currentGetUrl c) with
        | Some u => rollback_readers u st1
        | None => st1
        end.
Proof.
  intros Hcur Hopt. unfold post_settled.
  rewrite decide_False by (by intros []). rewrite Hopt.
  eexists. split_and!; [| | |reflexivity]; done.
Qed.

(** C4. When a post that applied optimistic data fails while its epoch is
    current: the data of the posting instance becomes its last confirmed
    response for the post address ([undefined] when there is none), with the
    error published and [isPosting] cleared; and, when a related read key is
    in force, every instance that has a setter registered for that key and a
    saved value for it in the read cache gets its own saved value back, while
    an instance with no saved value for the key, or with no setter registered
    for it, keeps the data it has.  Without a related read key no reader
    changes.  The state is any state in which the registries are well
    formed, as they are in every state reached from the initial one
    ([registries_wf_run_all]). *)
Theorem failed_optimistic_post_rolls_back
    (c : postCall) (error : err) (st : state) :
  registries_wf st →
  getFromDoubleMap (setEpochMap st) (pc_instanceId c) (pc_url c) = Some (pc_epoch c) →
  optimistic_truthy (optimisticData (pc_opts c)) = true →
  postHooks (post_settled c (Rejected error) st) !! pc_instanceId c
  = (λ _, PostHook
            (or_undefined
               (getFromDoubleMap (setDataMap st) (pc_instanceId c) (pc_url c)))
            false (Some error)) <$> postHooks st !! pc_instanceId c
  ∧ (∀ u j,
        related_key (pc_opts c) (pc_currentGetUrl c) = Some u →
        (∀ d v h,
            getFromDoubleMap (getSetDataMap st) j u = Some d →
            getFromDoubleMap (getDataMap st) j u = Some v →
            v ≠ VUndefined →
            getHooks st !! j = Some h →
            getHooks (post_settled c (Rejected error) st) !! j
            = Some (GetHook v (g_isGetting h) (g_error h)))
        ∧ (getFromDoubleMap (getDataMap st) j u = None
           ∨ getFromDoubleMap (getDataMap st) j u = Some VUndefined →
           getHooks (post_settled c (Rejected error) st) !! j = getHooks st !! j)
        ∧ (getFromDoubleMap (getSetDataMap st) j u = None →
           getHooks (post_settled c (Rejected error) st) !! j = getHooks st !! j))
  ∧ (related_key (pc_opts c) (pc_currentGetUrl c) = None →
     getHooks (post_settled c (Rejected error) st) = getHooks st).
Proof.
  intros Hwf Hcur Hopt. split.
  { rewrite (post_settled_postHooks c (Rejected error) st Hcur). by rewrite Hopt. }
  destruct (post_settled_rejected_optimistic c error st Hcur Hopt)
    as (st1 & Hh & Hd & Hs & ->).
  assert (registries_wf st1) as Hwf1 by by eapply registries_wf_same.
  split.
  - intros u j ->. rewrite (rollback_readers_lookup u j st1 Hwf1), Hh, Hd, Hs.
    split_and!.
    + intros d v h -> -> Hv ->. unfold is_undefined, value_undefinable.
      by rewrite bool_decide_eq_false_2.
    + intros [-> | ->]; [done|]. by destruct (getFromDoubleMap _ j u).
    + intros ->. by destruct (getFromDoubleMap _ j u).
  - by intros ->.
Qed.

Lemma failed_optimistic_post_rolls_back_witness :
  (g_data <$> getHooks (post_pending optimisticOptions) !! "G1"
   = Some (VObj "[optimistic]")
   ∧ g_data <$> getHooks (post_pending optimisticOptions) !! "G2"
     = Some (VObj "[optimistic]")
   ∧ g_data <$> getHooks (post_pending optimisticOptions) !! "G3"
     = Some (VObj "[optimistic]"))
  ∧ getHooks (post_settled (pending_call optimisticOptions) (Rejected "Post failed")
                (post_pending optimisticOptions)) !! "G1"
    = Some (GetHook (VObj "[1]") false None)
  ∧ getHooks (post_settled (pending_call optimisticOptions) (Rejected "Post failed")
                (post_pending optimisticOptions)) !! "G2"
    = Some (GetHook (VObj "[1,2]") false None)
  ∧ getHooks (post_settled (pending_call optimisticOptions) (Rejected "Post failed")
                (post_pending optimisticOptions)) !! "G3"
    = Some (GetHook (VObj "[optimistic]") true None).
Proof.
  assert (Hwf : registries_wf (post_pending optimisticOptions))
    by apply registries_wf_run_all, registries_wf_initial.
  assert (Hcur : getFromDoubleMap (setEpochMap (post_pending optimisticOptions))
                   (pc_instanceId (pending_call optimisticOptions))
                   (pc_url (pending_call optimisticOptions))
                 = Some (pc_epoch (pending_call optimisticOptions)))
    by by vm_compute.
  assert (Hopt : optimistic_truthy
                   (optimisticData (pc_opts (pending_call optimisticOptions)))
                 = true) by by vm_compute.
  assert (Hkey : related_key (pc_opts (pending_call optimisticOptions))
                   (pc_currentGetUrl (pending_call optimisticOptions))
                 = Some "/items") by by vm_compute.
  destruct (failed_optimistic_post_rolls_back (pending_call optimisticOptions)
              "Post failed" (post_pending optimisticOptions) Hwf Hcur Hopt)
    as (_ & Hreaders & _).
  split; [split_and!; by vm_compute|].
  split_and!.
  - destruct (Hreaders "/items" "G1" Hkey) as (Hown & _ & _).
    apply (Hown (SetDataOf "G1") (VObj "[1]")
             (GetHook (VObj "[optimistic]") false None));
      [by vm_compute | by vm_compute | done | by vm_compute].
  - destruct (Hreaders "/items" "G2" Hkey) as (Hown & _ & _).
    apply (Hown (SetDataOf "G2") (VObj "[1,2]")
             (GetHook (VObj "[optimistic]") false None));
      [by vm_compute | by vm_compute | done | by vm_compute].
  - destruct (Hreaders "/items" "G3" Hkey) as (_ & Hkeep & _).
    rewrite Hkeep; [by vm_compute | left; by vm_compute].
Defined.

(** The state a current post reaches by its own updates on success, before
    it propagates to the readers of the related key. *)
Lemma post_settled_resolved c result st :
  getFromDoubleMap (setEpochMap st) (pc_instanceId c) (pc_url c) = Some (pc_epoch c) →
  ∃ st1,
    getHooks st1 = getHooks st ∧ getDataMap st1 = getDataMap st
    ∧ getSetDataMap st1 = getSetDataMap st ∧ getTriggerMap st1 = getTriggerMap st
    ∧ getEpochMap st1 = getEpochMap st ∧ getterCalls st1 = getterCalls st
    ∧ timers st1 = timers st
    ∧ post_settled c (Resolved result) st
      = match related_key (pc_opts c) (pc_currentGetUrl c) with
        | None => st1
        | Some u =>
            if default false (mjoin (useResponseData (pc_opts c))) then
              let st2 := foldl (λ st d, dispatch d (ActValue result) st) st1
                           (getAllFromUrl (getSetDataMap st1) u) in
              foldl (λ st k,
                       set_getDataMap (setInDoubleMap (getDataMap st) k u result) st)
                st2 (JsMap.keys (getDataMap st2))
            else
              foldl (λ st t, trigger t st) st1 (getAllFromUrl (getTriggerMap st1) u)
        end.
Proof.
  intros Hcur. unfold post_settled. rewrite decide_False by (by intros []).
  eexists. split_and!; [| | | | | | |reflexivity]; done.
Qed.



(** * Further properties *)

(** ** The double maps *)

Lemma jsmap_elem_of_get {V} (m : list (string * V)) k v :
  NoDup (JsMap.keys m) → (k, v) ∈ m → JsMap.get k m = Some v.
Proof.
  unfold JsMap.keys. induction m as [|[k' v'] m IH]; simpl.
  - intros _ H. by apply elem_of_nil in H.
  - intros [Hk Hnd]%NoDup_cons [Heq|Hin]%elem_of_cons.
    + injection Heq as -> ->. by rewrite decide_True.
    + rewrite decide_False; [by apply IH|].
      intros ->. apply Hk. apply list_elem_of_fmap. by exists (k, v).
Qed.

Lemma setInDoubleMap_keys {T} (map : dmap T) i u x :
  JsMap.keys (setInDoubleMap map i u x)
  = if decide (i ∈ JsMap.keys map) then JsMap.keys map else JsMap.keys map ++ [i].
Proof.
  rewrite setInDoubleMap_unfold. case_decide as Hi.
  - apply jsmap_keys_set_Some. destruct (JsMap.get i map) eqn:Hget; [eauto|].
    by apply jsmap_get_None in Hget.
  - apply jsmap_keys_set_None. by apply jsmap_get_None.
Qed.

(** X1. Writing a double map and reading it back: the pair written reads as
    the value written and every other pair reads as before, also when the
    instance had no inner map yet; the outer map keeps its instances in
    their order, with a new instance added last, and never holds an instance
    twice. *)
Theorem double_map_set_then_get {T} (map : dmap T) (i u : string) (x : T)
    (i' u' : string) :
  getFromDoubleMap (setInDoubleMap map i u x) i' u'
  = (if decide ((i, u) = (i', u')) then Some x else getFromDoubleMap map i' u')
  ∧ JsMap.keys (setInDoubleMap map i u x)
    = (if decide (i ∈ JsMap.keys map) then JsMap.keys map
       else JsMap.keys map ++ [i])
  ∧ (NoDup (JsMap.keys map) → NoDup (JsMap.keys (setInDoubleMap map i u x)))
  ∧ (i' ∉ JsMap.keys map → getFromDoubleMap map i' u' = None).
Proof.
  split_and!.
  - apply getFromDoubleMap_set.
  - apply setInDoubleMap_keys.
  - apply setInDoubleMap_NoDup.
  - intros Hi. unfold getFromDoubleMap.
    by rewrite (proj2 (jsmap_get_None map i') Hi).
Qed.

(** ** Collecting over the instances *)

Lemma getAnyFromUrl_head {T} `{!Undefinable T} (map : dmap T) url :
  getAnyFromUrl map url = head (getAllFromUrl map url).
Proof.
  unfold getAllFromUrl, JsMap.values.
  induction map as [|[j im] map IH]; simpl; [done|].
  by destruct (defined_at url im).
Qed.

Lemma getAllFromUrl_elem_of {T} `{!Undefinable T} (map : dmap T) u x :
  NoDup (JsMap.keys map) →
  x ∈ getAllFromUrl map u
  ↔ ∃ i, getFromDoubleMap map i u = Some x ∧ is_undefined x = false.
Proof.
  intros Hnd. split.
  - unfold getAllFromUrl, JsMap.values.
    intros (im & Him & Hdef)%list_elem_of_omap.
    apply list_elem_of_fmap in Him as ([i im'] & -> & Hin). simpl in Hdef.
    exists i. unfold getFromDoubleMap.
    rewrite (jsmap_elem_of_get _ _ _ Hnd Hin). simpl.
    unfold defined_at in Hdef. destruct (im' !! u) as [y|]; [|done].
    destruct (is_undefined y) eqn:Hy; [done|]. by injection Hdef as ->.
  - intros (i & Hget & Hdef). by eapply elem_of_getAllFromUrl.
Qed.

Lemma getAllFromUrl_length {T} `{!Undefinable T} (map : dmap T) u :
  (List.length (getAllFromUrl map u) ≤ List.length map)%nat.
Proof.
  unfold getAllFromUrl, JsMap.values.
  induction map as [|[j im] map IH]; [done|].
  change (omap (defined_at u) ((j, im) :: map).*2)
    with (match defined_at u im with
          | Some y => y :: omap (defined_at u) map.*2
          | None => omap (defined_at u) map.*2
          end).
  destruct (defined_at u im); cbn [List.length]; lia.
Qed.

(** The loop of [getAllFromUrl] visits each instance once: its result is
    the list of the instances with, for each, the value it holds for the
    url, the instances that hold none or [undefined] left out. *)
Lemma getAllFromUrl_by_instance {T} `{!Undefinable T} (map : dmap T) u :
  NoDup (JsMap.keys map) →
  getAllFromUrl map u
  = omap (λ i, getFromDoubleMap map i u
               ≫= λ x, if is_undefined x then None else Some x)
      (JsMap.keys map).
Proof.
  intros Hnd. unfold getAllFromUrl, JsMap.values, JsMap.keys.
  apply list_omap_ext, Forall2_fmap, Forall_Forall2_diag, Forall_forall.
  intros [i im] Hin. simpl. unfold getFromDoubleMap.
  rewrite (jsmap_elem_of_get _ _ _ Hnd Hin). simpl. unfold defined_at.
  by destruct (im !! u).
Qed.

(** X2. What the two loops over the instances collect, in a map that holds
    each instance once: [getAllFromUrl] returns, in the order of the
    instances, the value each instance holds for the url, leaving out the
    instances that hold none and those that hold [undefined]; so one
    element for each instance that holds a value, and no more.  Its elements
    are exactly the values that some instance holds for the url and that are
    not [undefined], there are at most as many as instances, and none when
    no instance holds one; [getAnyFromUrl] returns the first of them, and
    [undefined] when there is none. *)
Theorem getAllFromUrl_collects {T} `{!Undefinable T} (map : dmap T) (u : string) :
  NoDup (JsMap.keys map) →
  getAllFromUrl map u
  = omap (λ i, getFromDoubleMap map i u
               ≫= λ x, if is_undefined x then None else Some x)
      (JsMap.keys map)
  ∧ (∀ x, x ∈ getAllFromUrl map u
          ↔ ∃ i, getFromDoubleMap map i u = Some x ∧ is_undefined x = false)
  ∧ (List.length (getAllFromUrl map u) ≤ List.length map)%nat
  ∧ ((∀ i, getFromDoubleMap map i u = None) → getAllFromUrl map u = [])
  ∧ getAnyFromUrl map u = head (getAllFromUrl map u).
Proof.
  intros Hnd. split_and!.
  - by apply getAllFromUrl_by_instance.
  - intros x. by apply getAllFromUrl_elem_of.
  - apply getAllFromUrl_length.
  - intros Hnone. destruct (getAllFromUrl map u) as [|x l] eqn:Hall; [done|].
    assert (x ∈ getAllFromUrl map u) as Hx by (rewrite Hall; apply list_elem_of_here).
    apply getAllFromUrl_elem_of in Hx as (i & Hget & _); [|done].
    by rewrite Hnone in Hget.
  - apply getAnyFromUrl_head.
Qed.

Lemma getAllFromUrl_collects_witness :
  NoDup (JsMap.keys two_registered)
  ∧ JsMap.keys two_registered = ["G1"; "G2"]
  ∧ getAllFromUrl two_registered "/b"
    = omap (λ i, getFromDoubleMap two_registered i "/b"
                 ≫= λ x, if is_undefined x then None else Some x)
        (JsMap.keys two_registered)
  ∧ getAllFromUrl two_registered "/b" = [TriggerFn "G1" "/b" false VNull]
  ∧ getAnyFromUrl two_registered "/a" = head (getAllFromUrl two_registered "/a")
  ∧ getAllFromUrl two_registered "/a"
    = [TriggerFn "G1" "/a" false VNull; TriggerFn "G2" "/a" true VNull].
Proof.
  assert (H : NoDup (JsMap.keys two_registered)).
  { unfold two_registered. do 3 apply setInDoubleMap_NoDup. apply NoDup_nil_2. }
  destruct (getAllFromUrl_collects two_registered "/a" H) as (_ & _ & _ & _ & Hany).
  destruct (getAllFromUrl_collects two_registered "/b" H) as (Hall & _).
  split; [exact H|]. split; [by vm_compute|]. split; [exact Hall|].
  split; [by vm_compute|]. split; [exact Hany | by vm_compute].
Defined.

(** ** The registrations *)

Lemma registrations_wf_same st st' :
  getTriggerMap st' = getTriggerMap st → getSetDataMap st' = getSetDataMap st →
  registrations_wf st → registrations_wf st'.
Proof. intros Ht Hs (H1 & H2 & H3). split_and!; by rewrite ?Ht, ?Hs. Qed.

Lemma post_getTriggerMap i url options body extra st :
  getTriggerMap (post i url options body extra st).1 = getTriggerMap st.
Proof.
  unfold post. rewrite incrementSetEpoch_unfold. simpl.
  destruct (optimistic_truthy _); [|done].
  destruct (related_key _ _) as [u|]; [|done].
  match goal with
  | |- context [foldl ?f ?a ?l] =>
      pose proof (dispatch_all_frame
                    (λ _, pushed_optimistic_action
                            (optimisticData (Object_assign options extra))) l a) as Hf
  end.
  red in Hf. destruct_and!. etrans; eauto.
Qed.

Lemma post_settled_getTriggerMap c o st :
  getTriggerMap (post_settled c o st) = getTriggerMap st.
Proof.
  unfold post_settled. case_decide; [done|]. destruct o as [result|error].
  - destruct (related_key _ _) as [u|]; [|done].
    destruct (default false _).
    + match goal with
      | |- getTriggerMap (foldl ?f (foldl ?g ?a ?l1) ?l2) = _ =>
          pose proof (overwrite_reads_frame u result l2 (foldl g a l1)) as Hf2;
          pose proof (dispatch_all_frame (λ _, ActValue result) l1 a) as Hf1
      end.
      red in Hf1, Hf2. destruct_and!. etrans; [eassumption|]. etrans; eauto.
    + match goal with
      | |- getTriggerMap (foldl ?f ?a ?l) = _ => pose proof (triggers_frame l a) as Hf
      end.
      red in Hf. destruct_and!. etrans; eauto.
  - destruct (optimistic_truthy _); [|done].
    destruct (related_key _ _) as [u|]; [|done].
    match goal with
    | |- getTriggerMap (rollback_readers u ?a) = _ =>
        pose proof (rollback_readers_frame u a) as Hf
    end.
    red in Hf. destruct_and!. etrans; eauto.
Qed.

Lemma registrations_wf_initial : registrations_wf initial.
Proof. split_and!; [apply NoDup_nil_2 | apply NoDup_nil_2 | done]. Qed.

Lemma registrations_wf_run e st : registrations_wf st → registrations_wf (run e st).
Proof.
  intros Hwf. destruct e; simpl.
  - split_and!; [apply NoDup_nil_2 | apply NoDup_nil_2 | done].
  - destruct Hwf as (Hnt & Hns & Htr). split_and!; simpl.
    + by apply setInDoubleMap_NoDup.
    + by apply setInDoubleMap_NoDup.
    + intros i u t. rewrite getFromDoubleMap_set.
      case_decide as Heq; [|apply Htr].
      injection Heq as <- <-. by intros [= <-].
  - unfold useGet_effect. destruct (negb _); [|done].
    pose proof (trigger_frame t st) as Hf. red in Hf. destruct_and!.
    by eapply registrations_wf_same.
  - pose proof (trigger_frame t st) as Hf. red in Hf. destruct_and!.
    by eapply registrations_wf_same.
  - unfold trigger_settled. case_decide; [done|]. destruct o as [result|error].
    + by eapply registrations_wf_same.
    + by destruct (negb _).
  - pose proof (triggers_frame
                  (getAllFromUrl (getTriggerMap st) (effective_url url q)) st) as Hf.
    red in Hf. destruct_and!. by eapply registrations_wf_same.
  - unfold usePost. by destruct (postHooks st !! instanceId).
  - eapply registrations_wf_same; [| |done].
    + apply post_getTriggerMap.
    + apply post_registries.
  - eapply registrations_wf_same; [| |done].
    + apply post_settled_getTriggerMap.
    + apply post_settled_getSetDataMap.
Qed.

Lemma registrations_wf_run_all es st :
  registrations_wf st → registrations_wf (run_all es st).
Proof.
  revert st. induction es as [|e es IH]; intros st Hwf; simpl; [done|].
  by apply IH, registrations_wf_run.
Qed.

(** X3. Whatever the module runs, from the initial state, keeps its
    registries well formed: the trigger registry, the setter registry and the
    read cache hold each instance once; the setter registered for an
    instance is that instance's own; and the trigger registered for an
    instance and a key closes over that instance and that key.  Any state
    that satisfies this keeps it along every run. *)
Theorem registries_stay_well_formed (es : list event) (st : state) :
  (registries_wf (run_all es initial) ∧ registrations_wf (run_all es initial))
  ∧ (registries_wf st → registrations_wf st →
     registries_wf (run_all es st) ∧ registrations_wf (run_all es st)).
Proof.
  split.
  - split.
    + apply registries_wf_run_all, registries_wf_initial.
    + apply registrations_wf_run_all, registrations_wf_initial.
  - intros H1 H2. split.
    + by apply registries_wf_run_all.
    + by apply registrations_wf_run_all.
Qed.

(** ** Manual refresh *)

Lemma getAllFromUrl_owner_NoDup {T} `{!Undefinable T} (owner : T → string)
    (map : dmap T) u :
  NoDup (JsMap.keys map) →
  (∀ i x, getFromDoubleMap map i u = Some x → owner x = i) →
  NoDup (owner <$> getAllFromUrl map u).
Proof.
  induction map as [|[k im] map IH]; intros Hnd Hown; [apply NoDup_nil_2|].
  pose proof Hnd as Hnd0.
  unfold JsMap.keys in Hnd. rewrite fmap_cons in Hnd. simpl in Hnd.
  apply NoDup_cons in Hnd as [Hk Hnd].
  assert (Hown' : ∀ i x, getFromDoubleMap map i u = Some x → owner x = i).
  { intros i x Hget. apply Hown. unfold getFromDoubleMap in *. simpl.
    destruct (decide (k = i)) as [->|]; [|done].
    by rewrite (proj2 (jsmap_get_None map i) Hk) in Hget. }
  change (getAllFromUrl ((k, im) :: map) u)
    with (match defined_at u im with
          | Some y => y :: getAllFromUrl map u
          | None => getAllFromUrl map u
          end).
  destruct (defined_at u im) as [x|] eqn:Hdef; [|by apply IH].
  rewrite fmap_cons. apply NoDup_cons. split; [|by apply IH].
  assert (owner x = k) as ->.
  { apply Hown. unfold getFromDoubleMap. simpl. rewrite decide_True by done. simpl.
    unfold defined_at in Hdef. destruct (im !! u) as [y|]; [|done].
    by destruct (is_undefined y); simplify_eq. }
  intros (y & Hy & Hin)%list_elem_of_fmap.
  apply getAllFromUrl_elem_of in Hin as (i & Hget & _); [|done].
  apply Hk. rewrite Hy, (Hown' _ _ Hget).
  unfold getFromDoubleMap in Hget.
  destruct (JsMap.get i map) as [im'|] eqn:Hi; [|done].
  apply jsmap_get_elem_of in Hi. apply list_elem_of_fmap. by exists (i, im').
Qed.

Lemma triggers_epoch key ts st i u :
  NoDup (t_instanceId <$> ts) → (∀ t, t ∈ ts → t_url t = key) →
  epoch_of (getEpochMap (foldl (λ st t, trigger t st) st ts)) i u
  = if decide (u = key ∧ i ∈ t_instanceId <$> ts)
    then (epoch_of (getEpochMap st) i u + 1)%N
    else epoch_of (getEpochMap st) i u.
Proof.
  revert st. induction ts as [|t ts IH]; intros st Hnd Hurl; cbn [foldl].
  - rewrite decide_False; [done|]. intros [_ H]. by apply elem_of_nil in H.
  - rewrite fmap_cons in Hnd. apply NoDup_cons in Hnd as [Ht Hnd].
    rewrite IH; [|done|intros t' Ht'; apply Hurl; by apply list_elem_of_further].
    rewrite trigger_getEpochMap, epoch_of_set.
    rewrite (Hurl t) by apply list_elem_of_here.
    rewrite fmap_cons.
    destruct (decide ((t_instanceId t, key) = (i, u))) as [[= <- <-]|Hne].
    + rewrite decide_False by (by intros [_ ?]).
      rewrite decide_True; [done|]. split; [done | apply list_elem_of_here].
    + destruct (decide (u = key ∧ i ∈ t_instanceId <$> ts)) as [[-> Hin]|Hn].
      * rewrite decide_True; [done|]. split; [done | by apply list_elem_of_further].
      * rewrite decide_False; [done|].
        intros [-> [->|Hin]%elem_of_cons]; [done|]. by apply Hn.
Qed.

Lemma trigger_keeps_data t st i :
  g_data <$> getHooks (trigger t st) !! i = g_data <$> getHooks st !! i
  ∧ g_error <$> getHooks (trigger t st) !! i = g_error <$> getHooks st !! i.
Proof.
  unfold trigger. rewrite incrementGetEpoch_unfold. simpl.
  destruct (t_keepPreviousData t); simpl; [done|].
  destruct (decide (t_instanceId t = i)) as [->|Hne].
  - rewrite lookup_alter_eq. by destruct (getHooks st !! i).
  - by rewrite lookup_alter_ne.
Qed.

Lemma triggers_keep_data ts st i :
  g_data <$> getHooks (foldl (λ st t, trigger t st) st ts) !! i
  = g_data <$> getHooks st !! i
  ∧ g_error <$> getHooks (foldl (λ st t, trigger t st) st ts) !! i
    = g_error <$> getHooks st !! i.
Proof.
  revert st. induction ts as [|t ts IH]; intros st; cbn [foldl]; [done|].
  destruct (IH (trigger t st)) as [-> ->]. apply trigger_keeps_data.
Qed.

(** X4. [triggerGet] starts one read for each instance that has a trigger
    registered for the effective key, and nothing else: the getter calls
    added are the registered triggers, in registration order; the read epoch
    of each of those instances for the key goes up by one and no other read
    epoch moves; no data, no error, no cache entry, no registration, no
    write epoch and no timer changes.  When no instance is registered for
    the key the state is left as it is. *)
Theorem triggerGet_starts_registered_reads
    (url : string) (q : option query) (st : state) :
  registrations_wf st →
  (getterCalls (triggerGet url q st)).*1
  = (getterCalls st).*1 ++ getAllFromUrl (getTriggerMap st) (effective_url url q)
  ∧ (∀ i u,
        epoch_of (getEpochMap (triggerGet url q st)) i u
        = if decide (u = effective_url url q
                     ∧ is_Some (getFromDoubleMap (getTriggerMap st) i
                                  (effective_url url q)))
          then (epoch_of (getEpochMap st) i u + 1)%N
          else epoch_of (getEpochMap st) i u)
  ∧ (∀ i, g_data <$> getHooks (triggerGet url q st) !! i = g_data <$> getHooks st !! i
          ∧ g_error <$> getHooks (triggerGet url q st) !! i
            = g_error <$> getHooks st !! i)
  ∧ only_reads_started st (triggerGet url q st)
  ∧ ((∀ i, getFromDoubleMap (getTriggerMap st) i (effective_url url q) = None) →
     triggerGet url q st = st).
Proof.
  intros (Hnt & Hns & Htr). unfold triggerGet.
  set (key := effective_url url q). split_and!.
  - apply triggers_getterCalls.
  - intros i u. rewrite (triggers_epoch key).
    + destruct (decide (u = key ∧ i ∈ t_instanceId <$> getAllFromUrl (getTriggerMap st) key))
        as [[-> Hin]|Hn].
      * rewrite decide_True; [done|]. split; [done|].
        apply list_elem_of_fmap in Hin as (t & -> & Hin).
        apply getAllFromUrl_elem_of in Hin as (j & Hget & _); [|done].
        destruct (Htr _ _ _ Hget) as [-> _]. eauto.
      * rewrite decide_False; [done|]. intros [-> [t Hget]]. apply Hn.
        split; [done|]. apply list_elem_of_fmap. exists t.
        split; [by destruct (Htr _ _ _ Hget) | by eapply elem_of_getAllFromUrl].
    + apply getAllFromUrl_owner_NoDup; [done|]. intros j t Hget.
      by destruct (Htr _ _ _ Hget).
    + intros t Hin. apply getAllFromUrl_elem_of in Hin as (j & Hget & _); [|done].
      by destruct (Htr _ _ _ Hget).
  - intros i. apply triggers_keep_data.
  - apply triggers_frame.
  - intros Hnone.
    assert (getAllFromUrl (getTriggerMap st) key = []) as ->; [|done].
    destruct (getAllFromUrl (getTriggerMap st) key) as [|t l] eqn:Hall; [done|].
    assert (t ∈ getAllFromUrl (getTriggerMap st) key) as Ht
      by (rewrite Hall; apply list_elem_of_here).
    apply getAllFromUrl_elem_of in Ht as (j & Hget & _); [|done].
    by rewrite Hnone in Hget.
Qed.

Lemma triggerGet_starts_registered_reads_witness :
  registrations_wf (run_all three_observers initial)
  ∧ (getterCalls (triggerGet "/items" None (run_all three_observers initial))).*1
    = (getterCalls (run_all three_observers initial)).*1
      ++ [TriggerFn "G1" "/items" true (VObj "[1]");
          TriggerFn "G2" "/items" false (VObj "[1,2]");
          TriggerFn "G3" "/items" false VNull].
Proof.
  assert (H : registrations_wf (run_all three_observers initial))
    by apply registrations_wf_run_all, registrations_wf_initial.
  destruct (triggerGet_starts_registered_reads "/items" None
              (run_all three_observers initial) H) as (Hcalls & _).
  split; [exact H|]. rewrite Hcalls. apply (f_equal (app _)). by vm_compute.
Defined.

(** ** A successful read *)

(** The [try] continuation of [trigger] when its epoch is current. *)
Lemma trigger_settled_resolved t epoch result st :
  getFromDoubleMap (getEpochMap st) (t_instanceId t) (t_url t) = Some epoch →
  trigger_settled t epoch (Resolved result) st
  = get_setIsGetting (t_instanceId t) false
      (get_setError (t_instanceId t) None
         (set_getDataMap
            (setInDoubleMap (getDataMap st) (t_instanceId t) (t_url t) result)
            (dispatch (SetDataOf (t_instanceId t)) (ActValue result) st))).
Proof.
  intros Hcur. unfold trigger_settled. by rewrite decide_False by (by intros []).
Qed.

Lemma resolved_read_commits_aux t epoch result st :
  getFromDoubleMap (getEpochMap st) (t_instanceId t) (t_url t) = Some epoch →
  getHooks (trigger_settled t epoch (Resolved result) st) !! t_instanceId t
  = (λ _, GetHook result false None) <$> getHooks st !! t_instanceId t
  ∧ ∀ j u,
      getFromDoubleMap (getDataMap (trigger_settled t epoch (Resolved result) st)) j u
      = if decide ((t_instanceId t, t_url t) = (j, u)) then Some result
        else getFromDoubleMap (getDataMap st) j u.
Proof.
  intros Hcur. rewrite (trigger_settled_resolved _ _ _ _ Hcur). simpl. split.
  - rewrite !lookup_alter_eq. by destruct (getHooks st !! t_instanceId t).
  - intros j u. apply getFromDoubleMap_set.
Qed.

(** X5. When the getter of a read resolves while the epoch of the read is
    current, the result becomes the data of the instance, with no error and
    [isGetting] cleared, and is cached for the instance under the key; the
    cells of the other instances and every other cache entry stay as they
    are, and no epoch, registration, getter call or timer changes. *)
Theorem resolved_read_commits
    (t : triggerFn) (epoch : N) (result : value) (st : state) :
  getFromDoubleMap (getEpochMap st) (t_instanceId t) (t_url t) = Some epoch →
  getHooks (trigger_settled t epoch (Resolved result) st) !! t_instanceId t
  = (λ _, GetHook result false None) <$> getHooks st !! t_instanceId t
  ∧ (∀ j, j ≠ t_instanceId t →
          getHooks (trigger_settled t epoch (Resolved result) st) !! j
          = getHooks st !! j)
  ∧ (∀ j u,
        getFromDoubleMap (getDataMap (trigger_settled t epoch (Resolved result) st)) j u
        = if decide ((t_instanceId t, t_url t) = (j, u)) then Some result
          else getFromDoubleMap (getDataMap st) j u)
  ∧ ledgers_same st (trigger_settled t epoch (Resolved result) st)
  ∧ getTriggerMap (trigger_settled t epoch (Resolved result) st) = getTriggerMap st
  ∧ getSetDataMap (trigger_settled t epoch (Resolved result) st) = getSetDataMap st
  ∧ getterCalls (trigger_settled t epoch (Resolved result) st) = getterCalls st
  ∧ timers (trigger_settled t epoch (Resolved result) st) = timers st
  ∧ postHooks (trigger_settled t epoch (Resolved result) st) = postHooks st
  ∧ setDataMap (trigger_settled t epoch (Resolved result) st) = setDataMap st.
Proof.
  intros Hcur. rewrite (trigger_settled_resolved _ _ _ _ Hcur). simpl.
  split_and!; try done.
  - rewrite !lookup_alter_eq. by destruct (getHooks st !! t_instanceId t).
  - intros j Hne. by rewrite !lookup_alter_ne.
  - intros j u. apply getFromDoubleMap_set.
Qed.

Lemma resolved_read_commits_witness :
  getFromDoubleMap
    (getEpochMap (useGet_effect (TriggerFn "G" "/items" false VNull)
                    (useGet "G" "/items" plainGet initial).1))
    (t_instanceId (TriggerFn "G" "/items" false VNull))
    (t_url (TriggerFn "G" "/items" false VNull)) = Some 1%N
  ∧ getHooks
      (trigger_settled (TriggerFn "G" "/items" false VNull) 1 (Resolved (VObj "[1]"))
         (useGet_effect (TriggerFn "G" "/items" false VNull)
            (useGet "G" "/items" plainGet initial).1)) !! "G"
    = Some (GetHook (VObj "[1]") false None).
Proof.
  assert (H : getFromDoubleMap
                (getEpochMap (useGet_effect (TriggerFn "G" "/items" false VNull)
                                (useGet "G" "/items" plainGet initial).1))
                (t_instanceId (TriggerFn "G" "/items" false VNull))
                (t_url (TriggerFn "G" "/items" false VNull)) = Some 1%N)
    by by vm_compute.
  destruct (resolved_read_commits (TriggerFn "G" "/items" false VNull) 1
              (VObj "[1]") _ H) as (Hown & _).
  split; [exact H|]. etrans; [exact Hown|]. by vm_compute.
Defined.

Lemma trigger_current t st :
  getFromDoubleMap (getEpochMap (trigger t st)) (t_instanceId t) (t_url t)
  = Some (incrementGetEpoch (t_instanceId t) (t_url t) st).2.
Proof.
  rewrite trigger_getEpochMap, incrementGetEpoch_unfold. simpl.
  apply getFromDoubleMap_set_eq.
Qed.

(** X6. Of two reads of the same instance and key that overlap, the one
    started last decides: whatever the outcome of the first and in whichever
    order the two settle, once both have settled the data of the instance
    and its cache entry are the result of the second, with no error and
    [isGetting] cleared. *)
Theorem later_read_wins
    (t t' : triggerFn) (o1 : outcome) (r2 : value) (st : state) (h : getHook) :
  t_instanceId t' = t_instanceId t → t_url t' = t_url t →
  getHooks st !! t_instanceId t = Some h →
  let e1 := (incrementGetEpoch (t_instanceId t) (t_url t) st).2 in
  let e2 := (incrementGetEpoch (t_instanceId t') (t_url t') (trigger t st)).2 in
  let st2 := trigger t' (trigger t st) in
  (getHooks (trigger_settled t' e2 (Resolved r2) (trigger_settled t e1 o1 st2))
     !! t_instanceId t = Some (GetHook r2 false None)
   ∧ getFromDoubleMap
       (getDataMap (trigger_settled t' e2 (Resolved r2) (trigger_settled t e1 o1 st2)))
       (t_instanceId t) (t_url t)
     = Some r2)
  ∧ (getHooks (trigger_settled t e1 o1 (trigger_settled t' e2 (Resolved r2) st2))
       !! t_instanceId t = Some (GetHook r2 false None)
     ∧ getFromDoubleMap
         (getDataMap (trigger_settled t e1 o1 (trigger_settled t' e2 (Resolved r2) st2)))
         (t_instanceId t) (t_url t)
       = Some r2).
Proof.
  intros Hi Hu Hh e1 e2 st2.
  assert (Hcur2 : getFromDoubleMap (getEpochMap st2) (t_instanceId t') (t_url t')
                  = Some e2) by apply trigger_current.
  assert (Hstale1 : getFromDoubleMap (getEpochMap st2) (t_instanceId t) (t_url t)
                    ≠ Some e1).
  { rewrite <- Hi, <- Hu, Hcur2. unfold e1, e2. rewrite !incrementGetEpoch_unfold.
    simpl. rewrite Hi, Hu, trigger_getEpochMap, epoch_of_set, decide_True by done.
    intros [= H]. lia. }
  assert (Hmounted : is_Some (getHooks st2 !! t_instanceId t)).
  { destruct (trigger_keeps_data t' (trigger t st) (t_instanceId t)) as [Hd _].
    destruct (trigger_keeps_data t st (t_instanceId t)) as [Hd' _].
    fold st2 in Hd. rewrite Hd', Hh in Hd.
    destruct (getHooks st2 !! t_instanceId t); [eauto | done]. }
  destruct Hmounted as [h2 Hh2].
  destruct (resolved_read_commits_aux t' e2 r2 st2 Hcur2) as (Hown & Hcache).
  rewrite Hi in Hown. rewrite Hi, Hu in Hcache.
  split.
  - rewrite (trigger_settled_stale t e1 o1 st2 Hstale1).
    rewrite Hown, Hh2, Hcache. by rewrite decide_True.
  - rewrite trigger_settled_stale.
    + rewrite Hown, Hh2, Hcache. by rewrite decide_True.
    + destruct (trigger_settled_ledgers t' e2 (Resolved r2) st2) as [-> _].
      exact Hstale1.
Qed.

Lemma later_read_wins_witness :
  let t := TriggerFn "G" "/items" false VNull in
  let st := (useGet "G" "/items" plainGet initial).1 in
  getHooks st !! t_instanceId t = Some (GetHook VNull true None)
  ∧ getHooks
      (trigger_settled t (incrementGetEpoch (t_instanceId t) (t_url t) st).2
         (Rejected "late")
         (trigger_settled t
            (incrementGetEpoch (t_instanceId t) (t_url t) (trigger t st)).2
            (Resolved (VObj "[2]")) (trigger t (trigger t st))))
      !! t_instanceId t
    = Some (GetHook (VObj "[2]") false None).
Proof.
  intros t st.
  assert (H : getHooks st !! t_instanceId t = Some (GetHook VNull true None))
    by by vm_compute.
  split; [exact H|].
  exact (proj1 (proj2 (later_read_wins t t (Rejected "late") (VObj "[2]") st
                         (GetHook VNull true None) eq_refl eq_refl H))).
Defined.

(** ** Retries *)

Lemma failed_attempt_unfold error t st :
  failed_attempt error t st
  = set_timers
      (timers (trigger t st) ++ (if truthy (t_data t) then [] else [(1000%N, t)]))
      (get_setIsGetting (t_instanceId t) false
         (get_setError (t_instanceId t) (Some error) (trigger t st))).
Proof.
  unfold failed_attempt. apply trigger_settled_rejected, trigger_current.
Qed.

Lemma failed_attempt_fields error t st :
  timers (failed_attempt error t st)
  = timers st ++ (if truthy (t_data t) then [] else [(1000%N, t)])
  ∧ getEpochMap (failed_attempt error t st) = getEpochMap (trigger t st)
  ∧ getterCalls (failed_attempt error t st) = getterCalls (trigger t st)
  ∧ getDataMap (failed_attempt error t st) = getDataMap st.
Proof.
  rewrite failed_attempt_unfold. simpl.
  pose proof (trigger_frame t st) as Hf. red in Hf. destruct_and!.
  split_and!; congruence.
Qed.

(** X7. Retries are not bounded.  When the data a trigger closed over is
    falsy, [n] attempts in a row whose getter rejects, each one the retry
    scheduled by the one before, leave [n] retries of that trigger scheduled,
    1000 ms each, with [n] getter calls issued and the read epoch of the
    pair raised by [n]; the read cache is never written.  When that data is
    truthy, no attempt schedules anything. *)
Theorem failed_reads_retry_without_bound
    (n : nat) (error : err) (t : triggerFn) (st : state) :
  timers (failed_attempts n error t st)
  = timers st ++ (if truthy (t_data t) then [] else replicate n (1000%N, t))
  ∧ epoch_of (getEpochMap (failed_attempts n error t st)) (t_instanceId t) (t_url t)
    = (epoch_of (getEpochMap st) (t_instanceId t) (t_url t) + N.of_nat n)%N
  ∧ (getterCalls (failed_attempts n error t st)).*1
    = (getterCalls st).*1 ++ replicate n t
  ∧ getDataMap (failed_attempts n error t st) = getDataMap st.
Proof.
  revert st. induction n as [|n IH]; intros st; cbn [failed_attempts].
  - split_and!; [by destruct (truthy _); rewrite app_nil_r | lia
                 | by rewrite app_nil_r | done].
  - destruct (IH (failed_attempt error t st)) as (-> & -> & -> & ->).
    destruct (failed_attempt_fields error t st) as (-> & -> & -> & ->).
    rewrite trigger_getEpochMap, epoch_of_set, decide_True by done.
    rewrite trigger_getterCalls, fmap_app. simpl.
    split_and!.
    + destruct (truthy (t_data t)); [by rewrite !app_nil_r|].
      by rewrite <- app_assoc.
    + lia.
    + by rewrite <- app_assoc.
    + done.
Qed.

(** ** After [clearCache] *)

(** X8. Right after [clearCache]: an instance that renders for the first
    time starts with [data = null], [isGetting = true] and no error, with or
    without [keepPreviousData]; every read and every write that was in
    flight is stale, so that its settling changes nothing, whatever epoch it
    captured; [triggerGet] reaches nobody; and the state cells of the
    mounted hooks are those from before the call. *)
Theorem clearCache_starts_over
    (i url : string) (options : GetOptions) (q : option query)
    (t : triggerFn) (epoch : N) (c : postCall) (o : outcome) (st : state) :
  getHooks st !! i = None →
  getHooks (useGet i url options (clearCache st)).1 !! i
  = Some (GetHook VNull true None)
  ∧ trigger_settled t epoch o (clearCache st) = clearCache st
  ∧ post_settled c o (clearCache st) = clearCache st
  ∧ triggerGet url q (clearCache st) = clearCache st
  ∧ getHooks (clearCache st) = getHooks st
  ∧ postHooks (clearCache st) = postHooks st.
Proof.
  intros Hnew. split_and!; try done.
  unfold useGet. simpl. rewrite Hnew. rewrite lookup_insert_eq.
  unfold useGet_initial_data. simpl. by destruct (keepPreviousData options).
Qed.

Lemma clearCache_starts_over_witness :
  getHooks after_first_read !! "G2" = None
  ∧ g_data <$> getHooks (useGet "G2" "/cached" keepingGet after_first_read).1 !! "G2"
    = Some (VObj "{message}")
  ∧ getHooks (useGet "G2" "/cached" keepingGet (clearCache after_first_read)).1 !! "G2"
    = Some (GetHook VNull true None).
Proof.
  assert (H : getHooks after_first_read !! "G2" = None) by by vm_compute.
  split; [exact H|]. split; [by vm_compute|].
  exact (proj1 (clearCache_starts_over "G2" "/cached" keepingGet None
                  (TriggerFn "G1" "/cached" true VNull) 1
                  (pending_call noPostOptions) (Rejected "late")
                  after_first_read H)).
Defined.

(** ** The start of a post *)

Lemma dispatch_each_once a ds st j :
  NoDup ds →
  getHooks (foldl (λ st d, dispatch d a st) st ds) !! j
  = if decide (SetDataOf j ∈ ds)
    then (λ h, GetHook (apply_action a (g_data h)) (g_isGetting h) (g_error h))
           <$> getHooks st !! j
    else getHooks st !! j.
Proof.
  revert st. induction ds as [|[k] ds IH]; intros st Hnd; cbn [foldl].
  - rewrite decide_False; [done | apply not_elem_of_nil].
  - apply NoDup_cons in Hnd as [Hk Hnd]. rewrite IH by done.
    unfold dispatch. cbn [getHooks set_getHooks].
    destruct (decide (k = j)) as [->|Hne].
    + rewrite decide_False by done. rewrite lookup_alter_eq.
      rewrite decide_True; [done | apply list_elem_of_here].
    + rewrite lookup_alter_ne by done.
      destruct (decide (SetDataOf j ∈ ds)) as [Hin|Hnin].
      * rewrite decide_True; [done | by apply list_elem_of_further].
      * rewrite decide_False; [done|].
        intros [Heq|Hin]%elem_of_cons; [congruence | done].
Qed.

Lemma registered_setters_NoDup st u :
  registries_wf st → registrations_wf st →
  NoDup (getAllFromUrl (getSetDataMap st) u)
  ∧ ∀ j, SetDataOf j ∈ getAllFromUrl (getSetDataMap st) u
         ↔ is_Some (getFromDoubleMap (getSetDataMap st) j u).
Proof.
  intros [_ Hset] (_ & Hns & _). split.
  - apply (NoDup_fmap_1 (λ d, let 'SetDataOf i := d in i)).
    apply getAllFromUrl_owner_NoDup; [done|].
    intros i d Hget. by rewrite (Hset _ _ _ Hget).
  - intros j. rewrite getAllFromUrl_elem_of by done. split.
    + intros (i & Hget & _). pose proof (Hset _ _ _ Hget) as [= ->]. eauto.
    + intros [d Hget]. exists j. by rewrite Hget, (Hset _ _ _ Hget).
Qed.

(** The fields a call of [post] leaves alone, and the cells of its own
    instance afterwards. *)
Lemma post_start_fields i url options body extra st :
  setDataMap (post i url options body extra st).1 = setDataMap st
  ∧ getEpochMap (post i url options body extra st).1 = getEpochMap st
  ∧ getterCalls (post i url options body extra st).1 = getterCalls st
  ∧ timers (post i url options body extra st).1 = timers st
  ∧ postHooks (post i url options body extra st).1
    = if optimistic_truthy (optimisticData (Object_assign options extra))
      then alter (λ h, PostHook
                         (apply_action
                            (own_optimistic_action
                               (optimisticData (Object_assign options extra)) body)
                            (p_data h))
                         (p_isPosting h) (p_error h)) i (postHooks st)
      else alter (λ h, PostHook (p_data h) true (p_error h)) i (postHooks st).
Proof.
  unfold post. rewrite incrementSetEpoch_unfold. simpl.
  destruct (optimistic_truthy _); [|done].
  destruct (related_key _ _) as [u|]; [|done].
  match goal with
  | |- context [foldl ?f ?a ?l] =>
      pose proof (dispatch_all_frame
                    (λ _, pushed_optimistic_action
                            (optimisticData (Object_assign options extra))) l a) as Hf
  end.
  red in Hf. destruct_and!. split_and!; etrans; eauto.
Qed.

(** X9. A post with truthy [optimisticData] applies it before the poster is
    called.  The data of the posting instance becomes the literal value, or
    the function applied to its previous data and the request body;
    [isPosting] and [error] are not touched.  With a related read key, each
    instance that has a setter registered for the key gets the literal
    value, or the function applied to that instance's own previous data with
    no request argument, exactly once, and the instances without such a
    setter keep their cells; without one no reader changes.  Neither cache,
    no read epoch, no getter call and no timer changes. *)
Theorem optimistic_post_applies_at_start
    (i url : string) (options : PostOptions) (body : value)
    (extra : option PostOptions) (st : state) :
  registries_wf st → registrations_wf st →
  optimistic_truthy (optimisticData (Object_assign options extra)) = true →
  postHooks (post i url options body extra st).1 !! i
  = (λ h, PostHook
            match optimisticData (Object_assign options extra) with
            | Some (OptUpdater f) => f (p_data h) body
            | Some (OptValue v) => v
            | None => VUndefined
            end (p_isPosting h) (p_error h)) <$> postHooks st !! i
  ∧ (∀ u j,
        related_key (Object_assign options extra)
          (currentGetUrl_of (Object_assign options extra)) = Some u →
        getHooks (post i url options body extra st).1 !! j
        = if decide (is_Some (getFromDoubleMap (getSetDataMap st) j u))
          then (λ h, GetHook
                       match optimisticData (Object_assign options extra) with
                       | Some (OptUpdater f) => f (g_data h) VUndefined
                       | Some (OptValue v) => v
                       | None => VUndefined
                       end (g_isGetting h) (g_error h)) <$> getHooks st !! j
          else getHooks st !! j)
  ∧ (related_key (Object_assign options extra)
       (currentGetUrl_of (Object_assign options extra)) = None →
     getHooks (post i url options body extra st).1 = getHooks st)
  ∧ getDataMap (post i url options body extra st).1 = getDataMap st
  ∧ setDataMap (post i url options body extra st).1 = setDataMap st
  ∧ getEpochMap (post i url options body extra st).1 = getEpochMap st
  ∧ getterCalls (post i url options body extra st).1 = getterCalls st
  ∧ timers (post i url options body extra st).1 = timers st.
Proof.
  intros Hwf Hreg Hopt.
  destruct (post_start_fields i url options body extra st)
    as (Hsd & Hge & Hgc & Htm & Hph).
  rewrite Hopt in Hph.
  split_and!; try done.
  - rewrite Hph, lookup_alter_eq. by destruct (postHooks st !! i).
  - intros u j Hkey. unfold post. rewrite incrementSetEpoch_unfold. simpl.
    rewrite Hopt, Hkey.
    destruct (registered_setters_NoDup st u Hwf Hreg) as [Hnd Hin].
    rewrite dispatch_each_once by done. simpl.
    destruct (decide (SetDataOf j ∈ getAllFromUrl (getSetDataMap st) u)) as [H|H].
    + rewrite decide_True by by apply Hin.
      destruct (getHooks st !! j) as [h|]; [|done]. simpl.
      by destruct (optimisticData (Object_assign options extra)) as [[v|f]|].
    + rewrite decide_False; [done|]. intros H'. by apply H, Hin.
  - intros Hkey. unfold post. rewrite incrementSetEpoch_unfold. simpl.
    by rewrite Hopt, Hkey.
  - apply post_registries.
Qed.

Lemma optimistic_post_applies_at_start_witness :
  (registries_wf (run_all three_observers initial)
   ∧ registrations_wf (run_all three_observers initial))
  ∧ postHooks (post "P" "/items" optimisticOptions (VObj "{name}") None
                 (run_all three_observers initial)).1 !! "P"
    = Some (PostHook (VObj "[optimistic]") false None).
Proof.
  assert (H1 : registries_wf (run_all three_observers initial))
    by apply registries_wf_run_all, registries_wf_initial.
  assert (H2 : registrations_wf (run_all three_observers initial))
    by apply registrations_wf_run_all, registrations_wf_initial.
  assert (H3 : optimistic_truthy
                 (optimisticData (Object_assign optimisticOptions None)) = true)
    by reflexivity.
  destruct (optimistic_post_applies_at_start "P" "/items" optimisticOptions
              (VObj "{name}") None (run_all three_observers initial) H1 H2 H3)
    as (Hown & _).
  split; [by split|]. rewrite Hown. by vm_compute.
Defined.

(** ** A post that fails after a confirmed one *)

Lemma post_settled_setDataMap c o st :
  setDataMap (post_settled c o st)
  = match o with
    | Resolved result =>
        if decide (getFromDoubleMap (setEpochMap st) (pc_instanceId c) (pc_url c)
                   = Some (pc_epoch c))
        then setInDoubleMap (setDataMap st) (pc_instanceId c) (pc_url c) result
        else setDataMap st
    | Rejected _ => setDataMap st
    end.
Proof.
  unfold post_settled. destruct (decide (_ ≠ _)) as [Hne|Heq].
  - destruct o; [|done]. by rewrite decide_False.
  - destruct o as [result|error].
    + rewrite decide_True by by destruct (decide (getFromDoubleMap (setEpochMap st)
                                   (pc_instanceId c) (pc_url c) = Some (pc_epoch c))).
      destruct (related_key _ _) as [u|]; [|done].
      destruct (default false _).
      * match goal with
        | |- setDataMap (foldl ?f (foldl ?g ?a ?l1) ?l2) = _ =>
            pose proof (overwrite_reads_frame u result l2 (foldl g a l1)) as Hf2;
            pose proof (dispatch_all_frame (λ _, ActValue result) l1 a) as Hf1
        end.
        red in Hf1, Hf2. destruct_and!. etrans; [eassumption|]. etrans; eauto.
      * match goal with
        | |- setDataMap (foldl ?f ?a ?l) = _ => pose proof (triggers_frame l a) as Hf
        end.
        red in Hf. destruct_and!. etrans; eauto.
    + destruct (optimistic_truthy _); [|done].
      destruct (related_key _ _) as [u|]; [|done].
      match goal with
      | |- setDataMap (rollback_readers u ?a) = _ =>
          pose proof (rollback_readers_frame u a) as Hf
      end.
      red in Hf. destruct_and!. etrans; eauto.
Qed.

(** X10. After a post of an instance was confirmed with a response, a later
    post of the same instance on the same address that applies optimistic
    data and then fails, its epoch current, leaves the instance with the
    confirmed response as its data, the error published and [isPosting]
    cleared: the optimistic value is gone and the data is what the server
    last confirmed. *)
Theorem failed_post_returns_to_confirmed
    (c : postCall) (r : value) (options : PostOptions) (body : value)
    (extra : option PostOptions) (error : err) (st : state) (h : postHook) :
  getFromDoubleMap (setEpochMap st) (pc_instanceId c) (pc_url c) = Some (pc_epoch c) →
  postHooks st !! pc_instanceId c = Some h →
  optimistic_truthy (optimisticData (Object_assign options extra)) = true →
  postHooks
    (post_settled
       (post (pc_instanceId c) (pc_url c) options body extra
          (post_settled c (Resolved r) st)).2
       (Rejected error)
       (post (pc_instanceId c) (pc_url c) options body extra
          (post_settled c (Resolved r) st)).1) !! pc_instanceId c
  = Some (PostHook r false (Some error)).
Proof.
  intros Hcur Hh Hopt.
  set (st1 := post_settled c (Resolved r) st).
  set (i := pc_instanceId c) in *. set (url := pc_url c) in *.
  assert (Hcache : getFromDoubleMap (setDataMap st1) i url = Some r).
  { unfold st1. rewrite post_settled_setDataMap, decide_True by done.
    apply getFromDoubleMap_set_eq. }
  assert (Hh1 : is_Some (postHooks st1 !! i)).
  { unfold st1, i. rewrite (post_settled_postHooks c (Resolved r) st Hcur).
    fold i. rewrite Hh. eauto. }
  destruct Hh1 as [h1 Hh1].
  destruct (post_start_fields i url options body extra st1)
    as (Hsd & _ & _ & _ & Hph).
  rewrite Hopt in Hph.
  pose proof (post_call_fields i url options body extra st1) as Hc2.
  set (c2 := (post i url options body extra st1).2) in *.
  set (st2 := (post i url options body extra st1).1) in *.
  assert (Hi2 : pc_instanceId c2 = i) by by rewrite Hc2.
  assert (Hu2 : pc_url c2 = url) by by rewrite Hc2.
  assert (Hcur2 : getFromDoubleMap (setEpochMap st2) (pc_instanceId c2) (pc_url c2)
                  = Some (pc_epoch c2)).
  { rewrite Hi2, Hu2. unfold st2. rewrite post_setEpochMap.
    rewrite Hc2. simpl. apply getFromDoubleMap_set_eq. }
  pose proof (post_settled_postHooks c2 (Rejected error) st2 Hcur2) as Hp.
  rewrite Hi2, Hu2 in Hp. rewrite Hp.
  assert (optimistic_truthy (optimisticData (pc_opts c2)) = true) as ->
    by by rewrite Hc2.
  rewrite Hsd, Hcache, Hph, lookup_alter_eq, Hh1. done.
Qed.

Lemma failed_post_returns_to_confirmed_witness :
  getFromDoubleMap (setEpochMap post_with_query.1)
    (pc_instanceId post_with_query.2) (pc_url post_with_query.2)
  = Some (pc_epoch post_with_query.2)
  ∧ postHooks
      (post_settled
         (post (pc_instanceId post_with_query.2) (pc_url post_with_query.2)
            optimisticOptions VNull None
            (post_settled post_with_query.2 (Resolved (VObj "{id:1}"))
               post_with_query.1)).2
         (Rejected "Post failed")
         (post (pc_instanceId post_with_query.2) (pc_url post_with_query.2)
            optimisticOptions VNull None
            (post_settled post_with_query.2 (Resolved (VObj "{id:1}"))
               post_with_query.1)).1) !! pc_instanceId post_with_query.2
    = Some (PostHook (VObj "{id:1}") false (Some "Post failed")).
Proof.
  assert (H1 : getFromDoubleMap (setEpochMap post_with_query.1)
                 (pc_instanceId post_with_query.2) (pc_url post_with_query.2)
               = Some (pc_epoch post_with_query.2)) by by vm_compute.
  assert (H2 : postHooks post_with_query.1 !! pc_instanceId post_with_query.2
               = Some (PostHook VNull true None)) by by vm_compute.
  split; [exact H1|].
  exact (failed_post_returns_to_confirmed post_with_query.2 (VObj "{id:1}")
           optimisticOptions VNull None "Post failed" post_with_query.1
           (PostHook VNull true None) H1 H2 eq_refl).
Defined.

(** ** A render of [useGet] *)

(** X11. A render of [useGet] registers, for its instance and effective key,
    the trigger closure of that render, which closes over the data the
    instance has at that render, and the setter of the instance; each
    replaces what the pair had before, and no other registration changes.  A
    render after the first keeps the state cells of the instance.  The
    render itself calls no getter and touches no cache, epoch or timer.  And
    a [triggerGet] with the same url and query, right after, calls that
    closure. *)
Theorem useGet_registers_latest_closure
    (i url : string) (options : GetOptions) (st : state) :
  getFromDoubleMap (getTriggerMap (useGet i url options st).1) i
    (effective_url url (get_query options))
  = Some (useGet i url options st).2
  ∧ (t_instanceId (useGet i url options st).2 = i
     ∧ t_url (useGet i url options st).2 = effective_url url (get_query options)
     ∧ Some (t_data (useGet i url options st).2)
       = g_data <$> getHooks (useGet i url options st).1 !! i)
  ∧ getFromDoubleMap (getSetDataMap (useGet i url options st).1) i
      (effective_url url (get_query options))
    = Some (SetDataOf i)
  ∧ (∀ j u, (i, effective_url url (get_query options)) ≠ (j, u) →
            getFromDoubleMap (getTriggerMap (useGet i url options st).1) j u
            = getFromDoubleMap (getTriggerMap st) j u
            ∧ getFromDoubleMap (getSetDataMap (useGet i url options st).1) j u
              = getFromDoubleMap (getSetDataMap st) j u)
  ∧ (is_Some (getHooks st !! i) → getHooks (useGet i url options st).1 = getHooks st)
  ∧ (getDataMap (useGet i url options st).1 = getDataMap st
     ∧ ledgers_same st (useGet i url options st).1
     ∧ getterCalls (useGet i url options st).1 = getterCalls st
     ∧ timers (useGet i url options st).1 = timers st)
  ∧ (useGet i url options st).2
    ∈ (getterCalls (triggerGet url (get_query options) (useGet i url options st).1)).*1.
Proof.
  split_and!; try done.
  - simpl. apply getFromDoubleMap_set_eq.
  - simpl. by rewrite lookup_insert_eq.
  - simpl. apply getFromDoubleMap_set_eq.
  - intros j u Hne. simpl. by rewrite !getFromDoubleMap_set_ne.
  - intros [h Hh]. simpl. rewrite Hh. by apply insert_id.
  - unfold triggerGet. rewrite triggers_getterCalls.
    apply elem_of_app. right.
    eapply (elem_of_getAllFromUrl _ i); [|done].
    simpl. apply getFromDoubleMap_set_eq.
Qed.

(** ** What later observers are seeded with *)

Lemma getAnyFromUrl_set_first (m : dmap value) i u v :
  v ≠ VUndefined → getAnyFromUrl m u = None →
  getAnyFromUrl (setInDoubleMap m i u v) u = Some v.
Proof.
  intros Hv. rewrite setInDoubleMap_unfold.
  assert (Hdef : ∀ im : gmap string value, defined_at u (<[u := v]> im) = Some v).
  { intros im. apply defined_at_value_Some. by rewrite lookup_insert_eq. }
  induction m as [|[k im] m IH]; simpl.
  - intros _. by rewrite Hdef.
  - destruct (defined_at u im) eqn:Hd; [done|]. intros Hnone.
    destruct (decide (k = i)) as [->|Hne]; simpl.
    + by rewrite Hdef.
    + rewrite Hd. by apply IH.
Qed.

Lemma getAnyFromUrl_set_some (m : dmap value) i u v :
  v ≠ VUndefined → is_Some (getAnyFromUrl (setInDoubleMap m i u v) u).
Proof.
  intros Hv. rewrite getAnyFromUrl_head.
  assert (v ∈ getAllFromUrl (setInDoubleMap m i u v) u) as Hin.
  { eapply (elem_of_getAllFromUrl _ i); [apply getFromDoubleMap_set_eq|].
    unfold is_undefined, value_undefinable. by apply bool_decide_eq_false_2. }
  destruct (getAllFromUrl (setInDoubleMap m i u v) u); [|by eexists].
  by apply elem_of_nil in Hin.
Qed.

(** A value written for an instance that the map does not hold yet comes
    last in the order of the instances: the first value of the url stays
    the first. *)
Lemma getAnyFromUrl_set_new (m : dmap value) i u v :
  v ≠ VUndefined → i ∉ JsMap.keys m →
  getAnyFromUrl (setInDoubleMap m i u v) u
  = Some (default v (getAnyFromUrl m u)).
Proof.
  intros Hv Hi. rewrite setInDoubleMap_unfold.
  rewrite (proj2 (jsmap_get_None m i) Hi). simpl.
  assert (Hdef : defined_at u (<[u := v]> (∅ : gmap string value)) = Some v).
  { apply defined_at_value_Some. by rewrite lookup_insert_eq. }
  unfold JsMap.keys in Hi.
  induction m as [|[k im] m IH]; simpl.
  - by rewrite Hdef.
  - simpl in Hi. apply not_elem_of_cons in Hi as [Hne Hi].
    rewrite decide_False by done. simpl.
    destruct (defined_at u im); [done|]. by apply IH.
Qed.

(** The value [getAnyFromUrl] returns is held by an instance of the map,
    and is not [undefined]. *)
Lemma getAnyFromUrl_held (m : dmap value) u v :
  getAnyFromUrl m u = Some v →
  v ≠ VUndefined ∧ ∃ j im, (j, im) ∈ m ∧ im !! u = Some v.
Proof.
  intros (l1 & j & im & l2 & -> & Hdef & _)%getAnyFromUrl_first.
  apply defined_at_value_Some in Hdef as [Him Hv]. split; [done|].
  exists j, im. split; [|done].
  apply elem_of_app. right. apply list_elem_of_here.
Qed.

(** X12. A read that resolved seeds the observers that mount afterwards.
    Once a read has committed a result that is not [undefined], the read
    cache holds for the key a value that is not [undefined], and an instance
    that renders for the first time with [keepPreviousData], on the same
    key, takes as its data the first such value in the order of the
    instances, with [isGetting] set exactly when that value is falsy; the
    value may be [null], and the start is then the one of an empty cache.
    When no instance held a value for the key before the read, the value
    taken is the result of the read.  When an instance held one and the
    reading instance was not in the cache yet, it is the value held before,
    not the result. *)
Theorem resolved_read_seeds_later_observers
    (t : triggerFn) (epoch : N) (result : value) (st : state)
    (i url : string) (options : GetOptions) :
  getFromDoubleMap (getEpochMap st) (t_instanceId t) (t_url t) = Some epoch →
  result ≠ VUndefined →
  getHooks st !! i = None →
  keepPreviousData options = true →
  effective_url url (get_query options) = t_url t →
  (∃ v, getAnyFromUrl (getDataMap (trigger_settled t epoch (Resolved result) st))
          (t_url t) = Some v
        ∧ v ≠ VUndefined
        ∧ (∃ j im, (j, im) ∈ getDataMap (trigger_settled t epoch (Resolved result) st)
                   ∧ im !! t_url t = Some v)
        ∧ getHooks (useGet i url options
                      (trigger_settled t epoch (Resolved result) st)).1 !! i
          = Some (GetHook v (negb (truthy v)) None))
  ∧ (getAnyFromUrl (getDataMap st) (t_url t) = None →
     getHooks (useGet i url options
                 (trigger_settled t epoch (Resolved result) st)).1 !! i
     = Some (GetHook result (negb (truthy result)) None))
  ∧ (t_instanceId t ∉ JsMap.keys (getDataMap st) →
     ∀ w, getAnyFromUrl (getDataMap st) (t_url t) = Some w →
          getHooks (useGet i url options
                      (trigger_settled t epoch (Resolved result) st)).1 !! i
          = Some (GetHook w (negb (truthy w)) None)).
Proof.
  intros Hcur Hv Hnew Hkeep Hkey.
  assert (Hnew' : getHooks (trigger_settled t epoch (Resolved result) st) !! i = None).
  { rewrite (trigger_settled_resolved _ _ _ _ Hcur). simpl.
    destruct (decide (t_instanceId t = i)) as [->|Hne].
    - by rewrite !lookup_alter_eq, Hnew.
    - by rewrite !lookup_alter_ne. }
  assert (Hmap : getDataMap (trigger_settled t epoch (Resolved result) st)
                 = setInDoubleMap (getDataMap st) (t_instanceId t) (t_url t) result).
  { by rewrite (trigger_settled_resolved _ _ _ _ Hcur). }
  assert (Hhook : ∀ v,
            getAnyFromUrl (getDataMap (trigger_settled t epoch (Resolved result) st))
              (t_url t) = Some v →
            getHooks (useGet i url options
                        (trigger_settled t epoch (Resolved result) st)).1 !! i
            = Some (GetHook v (negb (truthy v)) None)).
  { intros v Hany. unfold useGet. rewrite Hkey, Hnew'. simpl.
    rewrite lookup_insert_eq. unfold useGet_initial_data.
    rewrite Hkeep, Hany. simpl.
    apply getAnyFromUrl_held in Hany as [Hdef _]. by destruct v. }
  split_and!.
  - destruct (getAnyFromUrl_set_some (getDataMap st) (t_instanceId t) (t_url t)
                result Hv) as [v Hany].
    rewrite <- Hmap in Hany. exists v.
    destruct (getAnyFromUrl_held _ _ _ Hany) as [Hdef Hheld].
    split; [done|]. split; [done|]. split; [done | by apply Hhook].
  - intros Hnone. apply Hhook. rewrite Hmap. by apply getAnyFromUrl_set_first.
  - intros Hfresh w Hw. apply Hhook. rewrite Hmap.
    rewrite getAnyFromUrl_set_new by done. by rewrite Hw.
Qed.

Lemma resolved_read_seeds_later_observers_witness :
  (getFromDoubleMap
     (getEpochMap (useGet_effect (TriggerFn "G1" "/cached" true VNull)
                     (useGet "G1" "/cached" keepingGet initial).1))
     (t_instanceId (TriggerFn "G1" "/cached" true VNull))
     (t_url (TriggerFn "G1" "/cached" true VNull)) = Some 1%N
   ∧ getHooks
       (useGet "G2" "/cached" keepingGet
          (trigger_settled (TriggerFn "G1" "/cached" true VNull) 1
             (Resolved (VObj "{message}"))
             (useGet_effect (TriggerFn "G1" "/cached" true VNull)
                (useGet "G1" "/cached" keepingGet initial).1))).1 !! "G2"
     = Some (GetHook (VObj "{message}") false None))
  ∧ (getFromDoubleMap (getEpochMap second_read_pending.1)
       (t_instanceId second_read_pending.2) (t_url second_read_pending.2)
     = Some 1%N
     ∧ getAnyFromUrl (getDataMap second_read_pending.1)
         (t_url second_read_pending.2) = Some (VObj "{message}")
     ∧ getHooks
         (useGet "G3" "/cached" keepingGet
            (trigger_settled second_read_pending.2 1 (Resolved (VObj "{newer}"))
               second_read_pending.1)).1 !! "G3"
       = Some (GetHook (VObj "{message}") (negb (truthy (VObj "{message}"))) None)).
Proof.
  assert (H1 : getFromDoubleMap
                 (getEpochMap (useGet_effect (TriggerFn "G1" "/cached" true VNull)
                                 (useGet "G1" "/cached" keepingGet initial).1))
                 (t_instanceId (TriggerFn "G1" "/cached" true VNull))
                 (t_url (TriggerFn "G1" "/cached" true VNull)) = Some 1%N)
    by by vm_compute.
  assert (H2 : VObj "{message}" ≠ VUndefined) by done.
  assert (H3 : getHooks (useGet_effect (TriggerFn "G1" "/cached" true VNull)
                           (useGet "G1" "/cached" keepingGet initial).1) !! "G2"
               = None) by by vm_compute.
  assert (K1 : getFromDoubleMap (getEpochMap second_read_pending.1)
                 (t_instanceId second_read_pending.2)
                 (t_url second_read_pending.2) = Some 1%N) by by vm_compute.
  assert (K2 : VObj "{newer}" ≠ VUndefined) by done.
  assert (K3 : getHooks second_read_pending.1 !! "G3" = None) by by vm_compute.
  assert (K4 : effective_url "/cached" (get_query keepingGet)
               = t_url second_read_pending.2) by by vm_compute.
  assert (Hkeys : JsMap.keys (getDataMap second_read_pending.1) = ["G1"])
    by by vm_compute.
  assert (K5 : t_instanceId second_read_pending.2
               ∉ JsMap.keys (getDataMap second_read_pending.1)).
  { rewrite Hkeys. by intros ?%list_elem_of_singleton. }
  assert (K6 : getAnyFromUrl (getDataMap second_read_pending.1)
                 (t_url second_read_pending.2) = Some (VObj "{message}"))
    by by vm_compute.
  split.
  - split; [exact H1|].
    apply (proj1 (proj2 (resolved_read_seeds_later_observers
                           (TriggerFn "G1" "/cached" true VNull) 1
                           (VObj "{message}") _
                           "G2" "/cached" keepingGet H1 H2 H3 eq_refl eq_refl))).
    by vm_compute.
  - split; [exact K1|]. split; [exact K6|].
    exact (proj2 (proj2 (resolved_read_seeds_later_observers
                           second_read_pending.2 1 (VObj "{newer}")
                           second_read_pending.1
                           "G3" "/cached" keepingGet K1 K2 K3 eq_refl K4))
             K5 (VObj "{message}") K6).
Defined.

Lemma overwrite_keys u (v : value) ks (m : dmap value) :
  (∀ k, k ∈ ks → k ∈ JsMap.keys m) →
  JsMap.keys (foldl (λ m k, setInDoubleMap m k u v) m ks) = JsMap.keys m.
Proof.
  revert m. induction ks as [|k ks IH]; intros m Hks; cbn [foldl]; [done|].
  assert (JsMap.keys (setInDoubleMap m k u v) = JsMap.keys m) as Hk.
  { apply setInDoubleMap_keys_known, Hks, list_elem_of_here. }
  rewrite IH, Hk; [done|]. intros k' Hk'. rewrite Hk.
  by apply Hks, list_elem_of_further.
Qed.

(** X13. A post that succeeds with [useResponseData], its epoch current and
    a related read key in force, writes its response into the read cache of
    the instances the cache already knows, under the read key only, and adds
    no instance.  So when the cache knows at least one instance and the
    response is not [undefined], an observer that mounts later with
    [keepPreviousData] on the read key starts from the response; and when
    the cache knows no instance yet, nothing is cached and such an observer
    starts from [null]. *)
Theorem response_seeds_known_instances
    (c : postCall) (result : value) (st : state) (u : string)
    (options : GetOptions) :
  getFromDoubleMap (setEpochMap st) (pc_instanceId c) (pc_url c) = Some (pc_epoch c) →
  related_key (pc_opts c) (pc_currentGetUrl c) = Some u →
  default false (mjoin (useResponseData (pc_opts c))) = true →
  keepPreviousData options = true →
  JsMap.keys (getDataMap (post_settled c (Resolved result) st))
  = JsMap.keys (getDataMap st)
  ∧ (∀ j u', u' ≠ u →
             getFromDoubleMap (getDataMap (post_settled c (Resolved result) st)) j u'
             = getFromDoubleMap (getDataMap st) j u')
  ∧ (getDataMap st ≠ [] → result ≠ VUndefined →
     useGet_initial_data u options (post_settled c (Resolved result) st)
     = nullish result VNull)
  ∧ (getDataMap st = [] →
     getDataMap (post_settled c (Resolved result) st) = []
     ∧ useGet_initial_data u options (post_settled c (Resolved result) st) = VNull).
Proof.
  intros Hcur Hkey Huse Hkeep.
  destruct (post_settled_resolved c result st Hcur)
    as (st1 & Hh & Hd & Hs & Ht & He & Hc & Htm & Heq).
  rewrite Hkey, Huse in Heq. cbv zeta in Heq.
  pose proof (dispatch_all_frame (λ _, ActValue result)
                (getAllFromUrl (getSetDataMap st1) u) st1) as Hf1.
  set (st2 := foldl (λ st d, dispatch d (ActValue result) st) st1
                (getAllFromUrl (getSetDataMap st1) u)) in *.
  red in Hf1. destruct Hf1 as (_ & _ & Hd2 & _).
  assert (Hmap : getDataMap (post_settled c (Resolved result) st)
                 = foldl (λ m k, setInDoubleMap m k u result) (getDataMap st)
                     (JsMap.keys (getDataMap st))).
  { rewrite Heq, overwrite_reads_getDataMap. by rewrite Hd2, Hd. }
  assert (Hkeys : JsMap.keys (getDataMap (post_settled c (Resolved result) st))
                  = JsMap.keys (getDataMap st)).
  { rewrite Hmap. by apply overwrite_keys. }
  split_and!.
  - exact Hkeys.
  - intros j u' Hne. rewrite Hmap, overwrite_lookup.
    rewrite decide_False; [done|]. by intros [? _].
  - intros Hne Hv. unfold useGet_initial_data. rewrite Hkeep.
    assert (getAnyFromUrl (getDataMap (post_settled c (Resolved result) st)) u
            = Some result) as ->; [|done].
    destruct (getDataMap st) as [|[k0 im0] rest] eqn:Hm; [done|].
    assert (getFromDoubleMap (getDataMap (post_settled c (Resolved result) st)) k0 u
            = Some result) as Hget.
    { rewrite Hmap, overwrite_lookup. rewrite decide_True; [done|].
      split; [done | apply list_elem_of_here]. }
    destruct (getDataMap (post_settled c (Resolved result) st))
      as [|[k1 im1] rest1]; [done|].
    unfold JsMap.keys in Hkeys. simpl in Hkeys. injection Hkeys as -> _.
    unfold getFromDoubleMap in Hget. simpl in Hget.
    rewrite decide_True in Hget by done. simpl in Hget. simpl.
    assert (defined_at u im1 = Some result) as -> by by apply defined_at_value_Some.
    done.
  - intros Hempty. rewrite Hempty in Hmap. simpl in Hmap.
    split; [done|]. unfold useGet_initial_data. by rewrite Hkeep, Hmap.
Qed.

Lemma response_seeds_known_instances_witness :
  getFromDoubleMap (setEpochMap (post_pending responseOptions))
    (pc_instanceId (pending_call responseOptions))
    (pc_url (pending_call responseOptions))
  = Some (pc_epoch (pending_call responseOptions))
  ∧ useGet_initial_data "/items" keepingGet
      (post_settled (pending_call responseOptions) (Resolved (VObj "{id:9}"))
         (post_pending responseOptions))
    = VObj "{id:9}".
Proof.
  assert (H1 : getFromDoubleMap (setEpochMap (post_pending responseOptions))
                 (pc_instanceId (pending_call responseOptions))
                 (pc_url (pending_call responseOptions))
               = Some (pc_epoch (pending_call responseOptions))) by by vm_compute.
  assert (H2 : related_key (pc_opts (pending_call responseOptions))
                 (pc_currentGetUrl (pending_call responseOptions))
               = Some "/items") by by vm_compute.
  assert (H3 : default false
                 (mjoin (useResponseData (pc_opts (pending_call responseOptions))))
               = true) by by vm_compute.
  destruct (response_seeds_known_instances (pending_call responseOptions)
              (VObj "{id:9}") (post_pending responseOptions) "/items" keepingGet
              H1 H2 H3 eq_refl) as (_ & _ & Hseed & _).
  assert (H4 : getDataMap (post_pending responseOptions) ≠ []).
  { intros Heq.
    assert (Hk : JsMap.keys (getDataMap (post_pending responseOptions))
                 = ["G1"; "G2"]) by by vm_compute.
    rewrite Heq in Hk. discriminate Hk. }
  assert (H5 : VObj "{id:9}" ≠ VUndefined) by discriminate.
  split; [exact H1 | exact (Hseed H4 H5)].
Defined.

(** ** A post without a related read key *)

(** X14. A post whose merged options hold no [getUrl], or hold the empty
    string, stays with its own instance: neither its synchronous part nor,
    when it settles, either outcome changes the cells of any observer, the
    read cache, the read ledger, the registrations, the getter calls or the
    timers, also when [optimisticData] or [useResponseData] is set. *)
Theorem post_without_getUrl_is_local
    (i url : string) (options : PostOptions) (body : value)
    (extra : option PostOptions) (st : state) (o : outcome) (st2 : state) :
  string_truthy (mjoin (getUrl (Object_assign options extra))) = false →
  (getHooks (post i url options body extra st).1 = getHooks st
   ∧ getDataMap (post i url options body extra st).1 = getDataMap st
   ∧ getEpochMap (post i url options body extra st).1 = getEpochMap st
   ∧ getterCalls (post i url options body extra st).1 = getterCalls st
   ∧ timers (post i url options body extra st).1 = timers st)
  ∧ (getHooks (post_settled (post i url options body extra st).2 o st2) = getHooks st2
     ∧ getDataMap (post_settled (post i url options body extra st).2 o st2)
       = getDataMap st2
     ∧ getEpochMap (post_settled (post i url options body extra st).2 o st2)
       = getEpochMap st2
     ∧ getTriggerMap (post_settled (post i url options body extra st).2 o st2)
       = getTriggerMap st2
     ∧ getSetDataMap (post_settled (post i url options body extra st).2 o st2)
       = getSetDataMap st2
     ∧ getterCalls (post_settled (post i url options body extra st).2 o st2)
       = getterCalls st2
     ∧ timers (post_settled (post i url options body extra st).2 o st2) = timers st2).
Proof.
  intros Hno.
  assert (Hkey : ∀ g, related_key (Object_assign options extra) g = None).
  { intros g. unfold related_key. by rewrite Hno. }
  split.
  - unfold post. rewrite incrementSetEpoch_unfold. simpl. rewrite Hkey.
    by destruct (optimistic_truthy _).
  - rewrite post_call_fields. unfold post_settled. simpl. rewrite Hkey.
    case_decide; [done|]. destruct o as [result|error]; [done|].
    by destruct (optimistic_truthy _).
Qed.

Lemma post_without_getUrl_is_local_witness :
  string_truthy
    (mjoin (getUrl (Object_assign noPostOptions
                      (Some {| post_query := None; getUrl := Some (Some "");
                               getterQuery := Some (Some [("page", "1")]);
                               optimisticData := Some (OptValue (VObj "[optimistic]"));
                               useResponseData := Some (Some true) |}))))
  = false
  ∧ getHooks
      (post "P" "/items" noPostOptions VNull
         (Some {| post_query := None; getUrl := Some (Some "");
                  getterQuery := Some (Some [("page", "1")]);
                  optimisticData := Some (OptValue (VObj "[optimistic]"));
                  useResponseData := Some (Some true) |})
         (run_all three_observers initial)).1
    = getHooks (run_all three_observers initial).
Proof.
  assert (H : string_truthy
                (mjoin (getUrl (Object_assign noPostOptions
                                  (Some {| post_query := None;
                                           getUrl := Some (Some "");
                                           getterQuery := Some (Some [("page", "1")]);
                                           optimisticData :=
                                             Some (OptValue (VObj "[optimistic]"));
                                           useResponseData := Some (Some true) |}))))
              = false) by reflexivity.
  split; [exact H|].
  exact (proj1 (proj1 (post_without_getUrl_is_local "P" "/items" noPostOptions VNull
                         _ (run_all three_observers initial) (Rejected "x")
                         initial H))).
Defined.

(** ** From a post to the re-fetch it starts *)

Lemma triggers_calls key ts st :
  NoDup (t_instanceId <$> ts) → (∀ t, t ∈ ts → t_url t = key) →
  getterCalls (foldl (λ st t, trigger t st) st ts)
  = getterCalls st
    ++ map (λ t, (t, (epoch_of (getEpochMap st) (t_instanceId t) key + 1)%N)) ts.
Proof.
  revert st. induction ts as [|t ts IH]; intros st Hnd Hurl; cbn [foldl].
  - by rewrite app_nil_r.
  - rewrite fmap_cons in Hnd. apply NoDup_cons in Hnd as [Ht Hnd].
    rewrite IH; [|done|intros t' Ht'; apply Hurl; by apply list_elem_of_further].
    rewrite trigger_getterCalls, incrementGetEpoch_unfold. simpl.
    rewrite (Hurl t) by apply list_elem_of_here.
    rewrite <- app_assoc. simpl. do 2 f_equal.
    apply map_ext_in. intros t' Ht'%list_elem_of_In.
    rewrite trigger_getEpochMap, epoch_of_set.
    rewrite decide_False; [done|]. intros [= Heq _]. apply Ht.
    apply list_elem_of_fmap. by exists t'.
Qed.

Lemma epoch_of_current (epochMap : dmap N) i u (n : N) :
  epoch_of epochMap i u = n → n ≠ 0%N → getFromDoubleMap epochMap i u = Some n.
Proof.
  unfold epoch_of. destruct (getFromDoubleMap epochMap i u); simpl; congruence.
Qed.

(** X15. From a confirmed post to fresh data.  When a post succeeds without
    [useResponseData], its epoch current and a related read key in force,
    the trigger registered for an instance and the key is called with the
    next epoch of that pair, which is then the current one; so when the
    getter of that call resolves, nothing else having started for the pair,
    its result becomes the data of the instance, with no error and
    [isGetting] cleared, and is cached for it under the key. *)
Theorem post_refetch_commits
    (c : postCall) (r : value) (st : state) (u j : string) (t : triggerFn)
    (h : getHook) (v : value) :
  registrations_wf st →
  getFromDoubleMap (setEpochMap st) (pc_instanceId c) (pc_url c) = Some (pc_epoch c) →
  related_key (pc_opts c) (pc_currentGetUrl c) = Some u →
  default false (mjoin (useResponseData (pc_opts c))) = false →
  getFromDoubleMap (getTriggerMap st) j u = Some t →
  getHooks st !! j = Some h →
  (t, (epoch_of (getEpochMap st) j u + 1)%N)
  ∈ getterCalls (post_settled c (Resolved r) st)
  ∧ getFromDoubleMap (getEpochMap (post_settled c (Resolved r) st)) j u
    = Some (epoch_of (getEpochMap st) j u + 1)%N
  ∧ getHooks (trigger_settled t (epoch_of (getEpochMap st) j u + 1)%N (Resolved v)
                (post_settled c (Resolved r) st)) !! j
    = Some (GetHook v false None)
  ∧ getFromDoubleMap
      (getDataMap (trigger_settled t (epoch_of (getEpochMap st) j u + 1)%N
                     (Resolved v) (post_settled c (Resolved r) st))) j u
    = Some v.
Proof.
  intros (Hnt & Hns & Htr) Hcur Hkey Huse Hreg Hh.
  destruct (post_settled_resolved c r st Hcur)
    as (st1 & Hh1 & Hd1 & Hs1 & Ht1 & He1 & Hc1 & Htm1 & Heq).
  rewrite Hkey, Huse in Heq. rewrite Ht1 in Heq.
  destruct (Htr _ _ _ Hreg) as [Hti Htu].
  assert (Hnd : NoDup (t_instanceId <$> getAllFromUrl (getTriggerMap st) u)).
  { apply getAllFromUrl_owner_NoDup; [done|]. intros i t' Hget.
    by destruct (Htr _ _ _ Hget). }
  assert (Hurl : ∀ t', t' ∈ getAllFromUrl (getTriggerMap st) u → t_url t' = u).
  { intros t' Hin. apply getAllFromUrl_elem_of in Hin as (i & Hget & _); [|done].
    by destruct (Htr _ _ _ Hget). }
  assert (Hin : t ∈ getAllFromUrl (getTriggerMap st) u)
    by by eapply elem_of_getAllFromUrl.
  assert (Hepoch : getFromDoubleMap (getEpochMap (post_settled c (Resolved r) st)) j u
                   = Some (epoch_of (getEpochMap st) j u + 1)%N).
  { apply epoch_of_current; [|lia].
    rewrite Heq, (triggers_epoch u) by done. rewrite He1.
    rewrite decide_True; [done|]. split; [done|].
    apply list_elem_of_fmap. by exists t. }
  assert (Hcur' : getFromDoubleMap (getEpochMap (post_settled c (Resolved r) st))
                    (t_instanceId t) (t_url t)
                  = Some (epoch_of (getEpochMap st) j u + 1)%N)
    by by rewrite Hti, Htu.
  destruct (resolved_read_commits_aux t _ v _ Hcur') as (Hown & Hcache).
  rewrite Hti in Hown. rewrite Hti, Htu in Hcache.
  split_and!.
  - rewrite Heq, (triggers_calls u) by done. apply elem_of_app. right.
    rewrite He1. apply list_elem_of_In, in_map_iff. exists t.
    split; [by rewrite Hti | by apply list_elem_of_In].
  - exact Hepoch.
  - rewrite Hown.
    destruct (triggers_keep_data (getAllFromUrl (getTriggerMap st) u) st1 j)
      as [Hd _].
    rewrite <- Heq, Hh1, Hh in Hd.
    by destruct (getHooks (post_settled c (Resolved r) st) !! j).
  - rewrite Hcache. by rewrite decide_True.
Qed.

Lemma post_refetch_commits_witness :
  registrations_wf (post_pending refetchOptions)
  ∧ getHooks
      (trigger_settled (TriggerFn "G1" "/items" true (VObj "[1]"))
         (epoch_of (getEpochMap (post_pending refetchOptions)) "G1" "/items" + 1)%N
         (Resolved (VObj "[1,9]"))
         (post_settled (pending_call refetchOptions) (Resolved (VObj "{id:9}"))
            (post_pending refetchOptions))) !! "G1"
    = Some (GetHook (VObj "[1,9]") false None).
Proof.
  assert (H0 : registrations_wf (post_pending refetchOptions))
    by apply registrations_wf_run_all, registrations_wf_initial.
  assert (H1 : getFromDoubleMap (setEpochMap (post_pending refetchOptions))
                 (pc_instanceId (pending_call refetchOptions))
                 (pc_url (pending_call refetchOptions))
               = Some (pc_epoch (pending_call refetchOptions))) by by vm_compute.
  assert (H2 : related_key (pc_opts (pending_call refetchOptions))
                 (pc_currentGetUrl (pending_call refetchOptions))
               = Some "/items") by by vm_compute.
  assert (H3 : default false
                 (mjoin (useResponseData (pc_opts (pending_call refetchOptions))))
               = false) by by vm_compute.
  assert (H4 : getFromDoubleMap (getTriggerMap (post_pending refetchOptions))
                 "G1" "/items"
               = Some (TriggerFn "G1" "/items" true (VObj "[1]"))) by by vm_compute.
  assert (H5 : getHooks (post_pending refetchOptions) !! "G1"
               = Some (GetHook (VObj "[1]") false None)) by by vm_compute.
  split; [exact H0|].
  exact (proj1 (proj2 (proj2 (post_refetch_commits (pending_call refetchOptions)
                                (VObj "{id:9}") (post_pending refetchOptions)
                                "/items" "G1"
                                (TriggerFn "G1" "/items" true (VObj "[1]"))
                                (GetHook (VObj "[1]") false None) (VObj "[1,9]")
                                H0 H1 H2 H3 H4 H5)))).
Defined.

(** ** A retry that succeeds *)

Lemma failed_attempts_mounted n error t st i :
  is_Some (getHooks st !! i) → is_Some (getHooks (failed_attempts n error t st) !! i).
Proof.
  revert st. induction n as [|n IH]; intros st Hm; cbn [failed_attempts]; [done|].
  apply IH. rewrite failed_attempt_unfold. simpl.
  destruct (trigger_keeps_data t st i) as [Hd _]. destruct Hm as [h Hh].
  rewrite Hh in Hd.
  destruct (getHooks (trigger t st) !! i) as [h'|] eqn:Hh'; [|done].
  destruct (decide (t_instanceId t = i)) as [->|Hne].
  - rewrite !lookup_alter_eq, Hh'. by eexists.
  - rewrite !lookup_alter_ne by done. by eexists.
Qed.

(** X16. A read that kept failing recovers with the first attempt that
    succeeds: after any number of failed attempts of a trigger, each one the
    retry of the one before, the attempt whose getter resolves makes the
    result the data of the instance, clears the error and [isGetting],
    caches the result, and schedules no further retry. *)
Theorem retry_recovers
    (n : nat) (error : err) (t : triggerFn) (result : value) (st : state)
    (h : getHook) :
  getHooks st !! t_instanceId t = Some h →
  getHooks
    (trigger_settled t
       (incrementGetEpoch (t_instanceId t) (t_url t)
          (failed_attempts n error t st)).2
       (Resolved result) (trigger t (failed_attempts n error t st)))
    !! t_instanceId t
  = Some (GetHook result false None)
  ∧ getFromDoubleMap
      (getDataMap
         (trigger_settled t
            (incrementGetEpoch (t_instanceId t) (t_url t)
               (failed_attempts n error t st)).2
            (Resolved result) (trigger t (failed_attempts n error t st))))
      (t_instanceId t) (t_url t)
    = Some result
  ∧ timers
      (trigger_settled t
         (incrementGetEpoch (t_instanceId t) (t_url t)
            (failed_attempts n error t st)).2
         (Resolved result) (trigger t (failed_attempts n error t st)))
    = timers (failed_attempts n error t st).
Proof.
  intros Hh. set (stn := failed_attempts n error t st).
  pose proof (trigger_current t stn) as Hcur.
  destruct (resolved_read_commits_aux t _ result _ Hcur) as (Hown & Hcache).
  split_and!.
  - rewrite Hown.
    assert (is_Some (getHooks stn !! t_instanceId t)) as [hn Hn]
      by (apply failed_attempts_mounted; eauto).
    destruct (trigger_keeps_data t stn (t_instanceId t)) as [Hd _].
    rewrite Hn in Hd. by destruct (getHooks (trigger t stn) !! t_instanceId t).
  - rewrite Hcache. by rewrite decide_True.
  - rewrite (trigger_settled_resolved _ _ _ _ Hcur). simpl.
    pose proof (trigger_frame t stn) as Hf. red in Hf. by destruct_and!.
Qed.

Lemma retry_recovers_witness :
  getHooks (useGet "G" "/items" plainGet initial).1
    !! t_instanceId (TriggerFn "G" "/items" false VNull)
  = Some (GetHook VNull true None)
  ∧ getHooks
      (trigger_settled (TriggerFn "G" "/items" false VNull)
         (incrementGetEpoch (t_instanceId (TriggerFn "G" "/items" false VNull))
            (t_url (TriggerFn "G" "/items" false VNull))
            (failed_attempts 3 "Fetch failed" (TriggerFn "G" "/items" false VNull)
               (useGet "G" "/items" plainGet initial).1)).2
         (Resolved (VObj "[1]"))
         (trigger (TriggerFn "G" "/items" false VNull)
            (failed_attempts 3 "Fetch failed" (TriggerFn "G" "/items" false VNull)
               (useGet "G" "/items" plainGet initial).1)))
      !! t_instanceId (TriggerFn "G" "/items" false VNull)
    = Some (GetHook (VObj "[1]") false None).
Proof.
  assert (H : getHooks (useGet "G" "/items" plainGet initial).1
                !! t_instanceId (TriggerFn "G" "/items" false VNull)
              = Some (GetHook VNull true None)) by by vm_compute.
  split; [exact H|].
  exact (proj1 (retry_recovers 3 "Fetch failed" (TriggerFn "G" "/items" false VNull)
                  (VObj "[1]") (useGet "G" "/items" plainGet initial).1
                  (GetHook VNull true None) H)).
Defined.

(** ** Mounting *)

(** X17. What mounting an observer fetches.  On the first render of an
    instance followed by the effect of that render: when the initial data is
    truthy (a cached value found with [keepPreviousData]) no getter is
    called, no epoch moves and [isGetting] is off; when it is falsy exactly
    one getter call is issued, by the closure of that render and with the
    next read epoch of the pair, and [isGetting] is on. *)
Theorem mount_fetches_unless_seeded
    (i url : string) (options : GetOptions) (st : state) :
  getHooks st !! i = None →
  (truthy (useGet_initial_data (effective_url url (get_query options)) options st)
   = true →
   useGet_effect (useGet i url options st).2 (useGet i url options st).1
   = (useGet i url options st).1
   ∧ getterCalls (useGet i url options st).1 = getterCalls st
   ∧ g_isGetting <$> getHooks (useGet i url options st).1 !! i = Some false)
  ∧ (truthy (useGet_initial_data (effective_url url (get_query options)) options st)
     = false →
     getterCalls (useGet_effect (useGet i url options st).2 (useGet i url options st).1)
     = getterCalls st
       ++ [((useGet i url options st).2,
            (epoch_of (getEpochMap st) i (effective_url url (get_query options)) + 1)%N)]
     ∧ g_isGetting <$>
         getHooks (useGet_effect (useGet i url options st).2
                     (useGet i url options st).1) !! i
       = Some true).
Proof.
  intros Hnew.
  assert (Hdata : t_data (useGet i url options st).2
                  = useGet_initial_data (effective_url url (get_query options))
                      options st).
  { unfold useGet. by rewrite Hnew. }
  assert (Hhook : getHooks (useGet i url options st).1 !! i
                  = Some (GetHook (t_data (useGet i url options st).2)
                            (negb (truthy (t_data (useGet i url options st).2)))
                            None)).
  { unfold useGet. rewrite Hnew. simpl. by rewrite lookup_insert_eq. }
  split; intros Htruthy.
  - unfold useGet_effect. rewrite Hdata, Htruthy. cbn [negb]. split_and!; try done.
    rewrite Hhook, Hdata, Htruthy. done.
  - unfold useGet_effect. rewrite Hdata, Htruthy. cbn [negb]. split.
    + rewrite trigger_getterCalls, incrementGetEpoch_unfold. done.
    + unfold trigger. rewrite incrementGetEpoch_unfold.
      destruct (t_keepPreviousData (useGet i url options st).2) eqn:Hkeep.
      * cbn -[useGet]. rewrite Hhook, Hdata, Htruthy. done.
      * cbn -[useGet]. change (t_instanceId (useGet i url options st).2) with i.
        rewrite lookup_alter_eq, Hhook. done.
Qed.

Lemma mount_fetches_unless_seeded_witness :
  getHooks after_first_read !! "G2" = None
  ∧ getterCalls
      (useGet_effect (useGet "G2" "/cached" keepingGet after_first_read).2
         (useGet "G2" "/cached" keepingGet after_first_read).1)
    = getterCalls after_first_read.
Proof.
  assert (H : getHooks after_first_read !! "G2" = None) by by vm_compute.
  assert (Ht : truthy (useGet_initial_data
                         (effective_url "/cached" (get_query keepingGet))
                         keepingGet after_first_read) = true) by by vm_compute.
  destruct (mount_fetches_unless_seeded "G2" "/cached" keepingGet after_first_read H)
    as [Hseeded _].
  destruct (Hseeded Ht) as (Heff & Hcalls & _).
  split; [exact H|]. by rewrite Heff.
Defined.

(** ** Epochs after [clearCache] *)

(** X18. [clearCache] restarts the epochs, and an epoch alone does not tell a
    read from before the call from one after it.  The first read an instance
    starts for a key after [clearCache] captures epoch 1; a read of the same
    pair that captured epoch 1 earlier and settles after that start is
    therefore taken as current, and its result is committed as the data of
    the instance and cached. *)
Theorem clearCache_restarts_epochs
    (t : triggerFn) (result : value) (st : state) (h : getHook) :
  getHooks st !! t_instanceId t = Some h →
  (incrementGetEpoch (t_instanceId t) (t_url t) (clearCache st)).2 = 1%N
  ∧ getFromDoubleMap (getEpochMap (trigger t (clearCache st)))
      (t_instanceId t) (t_url t) = Some 1%N
  ∧ getHooks (trigger_settled t 1 (Resolved result) (trigger t (clearCache st)))
      !! t_instanceId t
    = Some (GetHook result false None)
  ∧ getFromDoubleMap
      (getDataMap (trigger_settled t 1 (Resolved result) (trigger t (clearCache st))))
      (t_instanceId t) (t_url t)
    = Some result.
Proof.
  intros Hh.
  assert (He : (incrementGetEpoch (t_instanceId t) (t_url t) (clearCache st)).2 = 1%N)
    by by rewrite incrementGetEpoch_unfold.
  pose proof (trigger_current t (clearCache st)) as Hcur. rewrite He in Hcur.
  destruct (resolved_read_commits_aux t _ result _ Hcur) as (Hown & Hcache).
  split_and!; try done.
  - rewrite Hown.
    destruct (trigger_keeps_data t (clearCache st) (t_instanceId t)) as [Hd _].
    change (getHooks (clearCache st)) with (getHooks st) in Hd. rewrite Hh in Hd.
    by destruct (getHooks (trigger t (clearCache st)) !! t_instanceId t).
  - rewrite Hcache. by rewrite decide_True.
Qed.

Lemma clearCache_restarts_epochs_witness :
  getHooks after_first_read !! t_instanceId (TriggerFn "G1" "/cached" true VNull)
  = Some (GetHook (VObj "{message}") false None)
  ∧ getHooks
      (trigger_settled (TriggerFn "G1" "/cached" true VNull) 1
         (Resolved (VObj "{old}"))
         (trigger (TriggerFn "G1" "/cached" true VNull) (clearCache after_first_read)))
      !! t_instanceId (TriggerFn "G1" "/cached" true VNull)
    = Some (GetHook (VObj "{old}") false None).
Proof.
  assert (H : getHooks after_first_read
                !! t_instanceId (TriggerFn "G1" "/cached" true VNull)
              = Some (GetHook (VObj "{message}") false None)) by by vm_compute.
  split; [exact H|].
  exact (proj1 (proj2 (proj2 (clearCache_restarts_epochs
                                (TriggerFn "G1" "/cached" true VNull)
                                (VObj "{old}") after_first_read
                                (GetHook (VObj "{message}") false None) H)))).
Defined.
